(** * TBone data models: schema registry, instance store and serializer

    A shallow embedding of [tbone/data/models.py]: the metaclass that merges
    field and export declarations along a class hierarchy, the instance store
    ([import_data], [validate], [_convert], iteration, equality) and the
    serializer ([_execute], [_serialize], [to_data], [to_python]).

    Python dictionaries and [OrderedDict]s are association lists kept in
    insertion order with unique keys; exceptions are an explicit [outcome];
    mutation of [self._data] is explicit state passing. *)

From Stdlib Require Import List String Ascii ZArith Bool Lia.
Import ListNotations.
Local Open Scope string_scope.

Set Implicit Arguments.
Set Warnings "-register-all".

(* ------------------------------------------------------------------ *)
(** ** Exceptions and results *)

(** A raised exception: its class name and its message. *)
Inductive exn : Type :=
| Exn (cls : string) (msg : string).

Definition TypeError (msg : string) : exn := Exn "TypeError" msg.
Definition ValueError (msg : string) : exn := Exn "ValueError" msg.
Definition AttributeError (msg : string) : exn := Exn "AttributeError" msg.

(** What a call produces: a returned value or a propagating exception. *)
Inductive outcome (A : Type) : Type :=
| Return (a : A)
| Raise (e : exn).
Arguments Return {A} a.
Arguments Raise {A} e.

Definition bind {A B : Type} (c : outcome A) (k : A -> outcome B) : outcome B :=
  match c with
  | Return a => k a
  | Raise e => Raise e
  end.

Notation "x <- c ;; k" := (bind c (fun x => k))
  (at level 61, c at next level, right associativity).

Definition returns {A : Type} (c : outcome A) : bool :=
  match c with Return _ => true | Raise _ => false end.

(* ------------------------------------------------------------------ *)
(** ** Insertion-ordered dictionaries with string keys

    [dict] (Python 3.7 and later) and [collections.OrderedDict] alike: keys
    are unique, iteration follows first insertion, and assigning to a key that
    is already there replaces the value and leaves the key where it is. *)

Module OrderedDict.
Section Dict.
Variable V : Type.

Definition t : Type := list (string * V).

Definition empty : t := [].

(** [d.get(k)] *)
Fixpoint get (d : t) (k : string) : option V :=
  match d with
  | [] => None
  | (k', v) :: rest => if String.eqb k k' then Some v else get rest k
  end.

(** [k in d] *)
Definition mem (d : t) (k : string) : bool :=
  match get d k with Some _ => true | None => false end.

(** [d[k] = v] *)
Fixpoint set (d : t) (k : string) (v : V) : t :=
  match d with
  | [] => [(k, v)]
  | (k', v') :: rest =>
      if String.eqb k k' then (k', v) :: rest else (k', v') :: set rest k v
  end.

(** [del d[k]] (on a key that is there) *)
Fixpoint del (d : t) (k : string) : t :=
  match d with
  | [] => []
  | (k', v') :: rest =>
      if String.eqb k k' then rest else (k', v') :: del rest k
  end.

(** [d.update(src)]: the items of [src], in its order, assigned one by one *)
Definition update (d src : t) : t :=
  fold_left (fun acc kv => set acc (fst kv) (snd kv)) src d.

(** [list(d)], [d.keys()] *)
Definition keys (d : t) : list string := map fst d.

(** [d.items()] *)
Definition items (d : t) : list (string * V) := d.
End Dict.
Arguments empty {V}.
End OrderedDict.

Abbreviation odict := OrderedDict.t.

(* ------------------------------------------------------------------ *)
(** ** Python values

    The values a store holds and a conversion returns: [None], booleans,
    integers, strings, lists, and coroutine objects (what calling an
    [async def] returns, carrying what awaiting it will produce). *)

Inductive pyval : Type :=
| PNone
| PBool (b : bool)
| PInt (n : Z)
| PStr (s : string)
| PList (l : list pyval)
| PCoro (r : outcome pyval).

(** [bool(v)] *)
Definition truthy (v : pyval) : bool :=
  match v with
  | PNone => false
  | PBool b => b
  | PInt n => negb (Z.eqb n 0)
  | PStr s => negb (String.eqb s "")
  | PList l => match l with [] => false | _ :: _ => true end
  | PCoro _ => true
  end.

(** [v is None] *)
Definition is_None (v : pyval) : bool :=
  match v with PNone => true | _ => false end.

(** [x == y].  [bool] is a subclass of [int], so [True == 1]; lists compare
    elementwise; coroutine objects compare by identity, and two occurrences
    are taken to be distinct objects. *)
Fixpoint py_eq (x y : pyval) {struct x} : bool :=
  match x, y with
  | PNone, PNone => true
  | PBool a, PBool b => Bool.eqb a b
  | PBool a, PInt n => Z.eqb (Z.b2z a) n
  | PInt n, PBool a => Z.eqb n (Z.b2z a)
  | PInt a, PInt b => Z.eqb a b
  | PStr a, PStr b => String.eqb a b
  | PList l1, PList l2 =>
      (fix all2 (l1 l2 : list pyval) {struct l1} : bool :=
         match l1, l2 with
         | [], [] => true
         | a :: l1', b :: l2' => py_eq a b && all2 l1' l2'
         | _, _ => false
         end) l1 l2
  | _, _ => false
  end.

(** [x != y] *)
Definition py_ne (x y : pyval) : bool := negb (py_eq x y).

(* ------------------------------------------------------------------ *)
(** ** Callables: plain functions and coroutine functions *)

(** A callable of one argument: [def] or [async def], with the body's
    result.  The body of a [def] may itself return a coroutine object. *)
Inductive pyfunc (A : Type) : Type :=
| Def (body : A -> outcome pyval)
| AsyncDef (body : A -> outcome pyval).

(** [func(a)]: a [def] runs its body; an [async def] returns a coroutine
    object without running anything. *)
Definition call {A : Type} (func : pyfunc A) (a : A) : outcome pyval :=
  match func with
  | Def body => body a
  | AsyncDef body => Return (PCoro (body a))
  end.

(** [asyncio.iscoroutinefunction(func)] *)
Definition iscoroutinefunction {A : Type} (func : pyfunc A) : bool :=
  match func with
  | Def _ => false
  | AsyncDef _ => true
  end.

(** [await v]: a coroutine object yields what its body produces; anything
    else cannot be awaited. *)
Definition await (v : pyval) : outcome pyval :=
  match v with
  | PCoro r => r
  | _ => Raise (TypeError "object can't be used in 'await' expression")
  end.

(* ------------------------------------------------------------------ *)
(** ** Fields

    [tbone/data/fields.py] is outside this development; a field is taken by
    its interface, as [models.py] uses it: [validate] (raises or
    returns), the two conversions (each a [def] or an [async def]), the
    [_projection] attribute, and the attribute descriptor [add_to_class]
    installs on the model class under the field's name. *)

Module BaseField.
Record t : Type := {
  (** [field.validate(value)]: [Some e] when it raises [e] *)
  validate : pyval -> option exn;
  to_python : pyfunc pyval;
  to_data : pyfunc pyval;
  (** [None]: never serialized; [True]: always; anything else: only when
      there is a value *)
  _projection : pyval;
  (** what [getattr(instance, name)] reads through the descriptor, from the
      field's name and the instance's [_data] *)
  descriptor_get : string -> odict pyval -> pyval
}.
End BaseField.

(** [d.get(k)] on a store: [None] for a missing key *)
Definition dict_get (d : odict pyval) (k : string) : pyval :=
  match OrderedDict.get d k with
  | Some v => v
  | None => PNone
  end.

(** An instance: its identity (what [is] compares), the name of its class
    (what [type(self) is type(other)] compares) and its store. *)
Record instance : Type := {
  oid : nat;
  type_name : string;
  _data : odict pyval
}.

Definition with_data (self : instance) (d : odict pyval) : instance :=
  {| oid := oid self; type_name := type_name self; _data := d |}.

(** The argument of [import_data] and of the constructor: a [dict] or any
    other object. *)
Inductive pyarg : Type :=
| ArgDict (d : odict pyval)
| ArgOther (v : pyval).

(* ------------------------------------------------------------------ *)
(** ** ModelOptions *)

Module ModelOptions.
(** The attributes of a configuration class as [dir] lists them, with the
    value [getattr] gives for each. *)
Definition block : Type := list (string * pyval).

(** The instance attributes [__init__] sets. *)
Definition t : Type := odict pyval.

(** The class attributes [name = None] and [namespace = None]. *)
Definition class_attrs : odict pyval :=
  [("name", PNone); ("namespace", PNone)].

(** [attr.startswith('_')] *)
Definition startswith_underscore (attr : string) : bool :=
  match attr with
  | String c _ => Ascii.eqb c "_"%char
  | EmptyString => false
  end.

Fixpoint copy_attrs (self : t) (attrs : block) : t :=
  match attrs with
  | [] => self
  | (attr, value) :: rest =>
      if negb (startswith_underscore attr)
      then copy_attrs (OrderedDict.set self attr value) rest
      else copy_attrs self rest
  end.

Definition __init__ (meta : option block) : t :=
  match meta with
  | Some m => copy_attrs OrderedDict.empty m
  | None => OrderedDict.empty
  end.

(** [opts.attr]: the instance attribute, else the class attribute. *)
Definition getattr (self : t) (attr : string) : option pyval :=
  match OrderedDict.get self attr with
  | Some v => Some v
  | None => OrderedDict.get class_attrs attr
  end.
End ModelOptions.

(* ------------------------------------------------------------------ *)
(** ** ModelMeta: building a model class *)

(** A value bound in a class body, as [__new__] tells them apart. *)
Inductive member : Type :=
| FieldMember (f : BaseField.t)
    (** [isinstance(value, BaseField)] *)
| ExportMember (func : pyfunc instance)
    (** a callable carrying [_export_method_] *)
| OtherMember (attrs : ModelOptions.block).
    (** anything else (a method, a nested [class Meta], a constant), with its
        attributes *)

Record ModelClass : Type := {
  __name__ : string;
  _fields : odict BaseField.t;
  _exports : odict (pyfunc instance);
  (** [getattr(cls, 'Meta', None)] *)
  Meta : option ModelOptions.block;
  _meta : ModelOptions.t
}.

(** A base class: one built by the metaclass, or a plain class ([object], a
    mixin) that has neither [_fields] nor [_exports]; a plain class either
    has no attribute [Meta] or has one, with the attributes [meta]. *)
Inductive base : Type :=
| ModelBase (c : ModelClass)
| PlainBase
| MixinBase (meta : ModelOptions.block).

Module ModelMeta.
(** The decorator [__prepare__] puts in the class namespace: it marks the
    function and returns a plain [def] wrapper that calls it. *)
Definition export (func : pyfunc instance) : member :=
  ExportMember (Def (fun self => call func self)).

(** The namespace a class body starts from: the key [export] is bound. *)
Definition __prepare__ : odict member :=
  [("export", OtherMember [])].

(** The namespace after the class body has run its assignments in order. *)
Definition class_body (decls : list (string * member)) : odict member :=
  OrderedDict.update __prepare__ decls.

(** First loop: the bases, from last to first. *)
Fixpoint inherit (bases : list base)
    (fields : odict BaseField.t) (exports : odict (pyfunc instance))
  : odict BaseField.t * odict (pyfunc instance) :=
  match bases with
  | [] => (fields, exports)
  | b :: rest =>
      match b with
      | ModelBase c =>
          inherit rest (OrderedDict.update fields (_fields c))
                       (OrderedDict.update exports (_exports c))
      | PlainBase => inherit rest fields exports
      | MixinBase _ => inherit rest fields exports
      end
  end.

(** Second loop: the class's own namespace. *)
Fixpoint collect (attrs : list (string * member))
    (fields : odict BaseField.t) (exports : odict (pyfunc instance))
  : odict BaseField.t * odict (pyfunc instance) :=
  match attrs with
  | [] => (fields, exports)
  | (key, value) :: rest =>
      match value with
      | ExportMember func => collect rest fields (OrderedDict.set exports key func)
      | FieldMember f => collect rest (OrderedDict.set fields key f) exports
      | OtherMember _ => collect rest fields exports
      end
  end.

(** [getattr(cls, 'Meta', None)]: the class's own attribute, else the first
    base that has one, a model class or a plain one (bases in order; the
    method resolution order as long as no class is inherited along two
    paths).  The attributes of a field or function bound to [Meta] are not
    modelled. *)
Fixpoint inherited_Meta (bases : list base) : option ModelOptions.block :=
  match bases with
  | [] => None
  | ModelBase c :: rest =>
      match Meta c with
      | Some m => Some m
      | None => inherited_Meta rest
      end
  | PlainBase :: rest => inherited_Meta rest
  | MixinBase m :: _ => Some m
  end.

Definition lookup_Meta (attrs : odict member) (bases : list base)
  : option ModelOptions.block :=
  match OrderedDict.get attrs "Meta" with
  | Some (OtherMember m) => Some m
  | Some _ => Some []
  | None => inherited_Meta bases
  end.

(** [ModelMeta.__new__(mcl, name, bases, attrs)].  [deepcopy] of a base's
    dictionaries is the identity on values.  The call
    [field.add_to_class(cls, name)] on every merged field installs the
    field's descriptor on the class, which [BaseField.descriptor_get] and
    [Model.getattr] stand for. *)
Definition __new__ (name : string) (bases : list base) (attrs : odict member)
  : ModelClass :=
  let attrs := OrderedDict.del attrs "export" in
  let '(fields, exports) :=
    inherit (rev bases) OrderedDict.empty OrderedDict.empty in
  let '(fields, exports) := collect (OrderedDict.items attrs) fields exports in
  let opts := lookup_Meta attrs bases in
  {| __name__ := name;
     _fields := fields;
     _exports := exports;
     Meta := opts;
     _meta := ModelOptions.__init__ opts |}.

(** [class name(bases): decls] *)
Definition class_stmt (name : string) (bases : list base)
    (decls : list (string * member)) : ModelClass :=
  __new__ name bases (class_body decls).
End ModelMeta.

(* ------------------------------------------------------------------ *)
(** ** ModelSerializer

    The serializer's methods are coroutines; each function below gives what
    awaiting the method produces.  The methods read [self._fields] and
    [self._exports] from the class, which is passed along as [cls]. *)

Module ModelSerializer.
(** [await self._execute(func, a)] *)
Definition _execute {A : Type} (func : pyfunc A) (a : A) : outcome pyval :=
  if iscoroutinefunction func
  then c <- call func a ;; await c
  else call func a.

(** The loop over [self._fields.items()], [data] being the dictionary
    built so far. *)
Fixpoint serialize_fields (self : instance) (native : bool)
    (fields : list (string * BaseField.t)) (data : odict pyval)
  : outcome (odict pyval) :=
  match fields with
  | [] => Return data
  | (field_name, field) :: rest =>
      let raw_data := dict_get (_data self) field_name in
      field_data <-
        (if native
         then _execute (BaseField.to_python field) raw_data
         else _execute (BaseField.to_data field) raw_data) ;;
      if truthy field_data && py_ne (BaseField._projection field) PNone
      then serialize_fields self native rest
             (OrderedDict.set data field_name field_data)
      else if is_None field_data
                && py_eq (BaseField._projection field) (PBool true)
      then serialize_fields self native rest
             (OrderedDict.set data field_name PNone)
      else serialize_fields self native rest data
  end.

(** The loop over [self._exports.items()]: [data[name] = await func(self)]. *)
Fixpoint serialize_exports (self : instance)
    (exports : list (string * pyfunc instance)) (data : odict pyval)
  : outcome (odict pyval) :=
  match exports with
  | [] => Return data
  | (name, func) :: rest =>
      c <- call func self ;;
      v <- await c ;;
      serialize_exports self rest (OrderedDict.set data name v)
  end.

(** [await self._serialize(native)]; the parameters [exports] and
    [projection] of the method are not read by its body. *)
Definition _serialize (cls : ModelClass) (self : instance) (native : bool)
  : outcome (odict pyval) :=
  data <- serialize_fields self native
            (OrderedDict.items (_fields cls)) OrderedDict.empty ;;
  serialize_exports self (OrderedDict.items (_exports cls)) data.

Definition to_data (cls : ModelClass) (self : instance) : outcome (odict pyval) :=
  _serialize cls self false.

Definition to_python (cls : ModelClass) (self : instance) : outcome (odict pyval) :=
  _serialize cls self true.
End ModelSerializer.

(* ------------------------------------------------------------------ *)
(** ** Model *)

(** What [__eq__] returns. *)
Inductive eq_result : Type :=
| EqTrue
| EqFalse
| NotImplemented.

Module Model.
(** [class Model(ModelSerializer, metaclass=ModelMeta)]: no field and no
    export of its own. *)
Definition Model : ModelClass :=
  ModelMeta.class_stmt "Model" [PlainBase] [].

(** [key for key in self._fields if key in self._data] *)
Definition __iter__ (cls : ModelClass) (self : instance) : list string :=
  filter (fun key => OrderedDict.mem (_data self) key)
         (OrderedDict.keys (_fields cls)).

(** [getattr(self, k)] for the attributes the metaclass installs: the
    descriptor of field [k]. *)
Definition getattr (cls : ModelClass) (self : instance) (k : string)
  : outcome pyval :=
  match OrderedDict.get (_fields cls) k with
  | Some field => Return (BaseField.descriptor_get field k (_data self))
  | None => Raise (AttributeError k)
  end.

(** The loop of [__eq__] over [for k in self]. *)
Fixpoint eq_loop (cls : ModelClass) (self other : instance) (ks : list string)
  : outcome eq_result :=
  match ks with
  | [] => Return EqTrue
  | k :: rest =>
      a <- getattr cls self k ;;
      b <- getattr cls other k ;;
      if py_ne a b then Return EqFalse else eq_loop cls self other rest
  end.

Definition __eq__ (cls : ModelClass) (self other : instance)
  : outcome eq_result :=
  if Nat.eqb (oid self) (oid other) then Return EqTrue
  else if negb (String.eqb (type_name self) (type_name other))
  then Return NotImplemented
  else eq_loop cls self other (__iter__ cls self).

(** [list(iter(cls._fields))] *)
Definition fields (cls : ModelClass) : list string :=
  OrderedDict.keys (_fields cls).

(** [[(field, self._data[field]) for field in self]] *)
Definition items (cls : ModelClass) (self : instance) : list (string * pyval) :=
  map (fun field => (field, dict_get (_data self) field)) (__iter__ cls self).

(** [_validate]'s loop over [self._fields.items()]. *)
Fixpoint validate_fields (fields : list (string * BaseField.t))
    (data : odict pyval) : outcome unit :=
  match fields with
  | [] => Return tt
  | (name, field) :: rest =>
      match BaseField.validate field (dict_get data name) with
      | Some e => Raise e
      | None => validate_fields rest data
      end
  end.

Definition _validate (cls : ModelClass) (data : odict pyval) : outcome unit :=
  validate_fields (OrderedDict.items (_fields cls)) data.

Definition validate (cls : ModelClass) (self : instance) : outcome unit :=
  _validate cls (_data self).

(** [_convert]'s loop; the conversions are called, not awaited. *)
Fixpoint convert_fields (fields : list (string * BaseField.t))
    (data : odict pyval) (native : bool) (converted_data : odict pyval)
  : outcome (odict pyval) :=
  match fields with
  | [] => Return converted_data
  | (name, field) :: rest =>
      v <- (if native
            then call (BaseField.to_python field) (dict_get data name)
            else call (BaseField.to_data field) (dict_get data name)) ;;
      convert_fields rest data native (OrderedDict.set converted_data name v)
  end.

Definition _convert (cls : ModelClass) (data : odict pyval) (native : bool)
  : outcome (odict pyval) :=
  convert_fields (OrderedDict.items (_fields cls)) data native OrderedDict.empty.

(** [import_data]: the instance afterwards, and how the call ended.  A
    conversion that raises leaves the store merged and not converted. *)
Definition import_data (cls : ModelClass) (self : instance) (data : pyarg)
  : instance * outcome unit :=
  match data with
  | ArgOther _ => (self, Raise (ValueError "Cannot import data not as dict"))
  | ArgDict d =>
      let merged := OrderedDict.update (_data self) d in
      match _convert cls merged true with
      | Return converted => (with_data self converted, Return tt)
      | Raise e => (with_data self merged, Raise e)
      end
  end.

Definition export_data (cls : ModelClass) (self : instance) (native : bool)
  : outcome (odict pyval) :=
  _convert cls (_data self) native.

(** [bool(data)] for the constructor's argument *)
Definition arg_truthy (data : pyarg) : bool :=
  match data with
  | ArgDict d => match d with [] => false | _ :: _ => true end
  | ArgOther v => truthy v
  end.

(** [cls(data)]: the new object, with identity [id], and how [__init__]
    ended. *)
Definition __init__ (cls : ModelClass) (id : nat) (data : pyarg)
  : instance * outcome unit :=
  let self := {| oid := id; type_name := __name__ cls;
                 _data := OrderedDict.empty |} in
  if arg_truthy data
  then match import_data cls self data with
       | (self', Return _) => (self', validate cls self')
       | (self', Raise e) => (self', Raise e)
       end
  else (self, Return tt).
End Model.

(* ------------------------------------------------------------------ *)
(** ** Notions the statements below are phrased with *)

(** A list of names with every repetition after the first removed. *)
Fixpoint first_occurrences (l : list string) : list string :=
  match l with
  | [] => []
  | k :: rest =>
      k :: filter (fun k' => negb (String.eqb k' k)) (first_occurrences rest)
  end.

(** The fields a base contributes to the merge. *)
Definition base_fields (b : base) : odict BaseField.t :=
  match b with
  | ModelBase c => _fields c
  | PlainBase => OrderedDict.empty
  | MixinBase _ => OrderedDict.empty
  end.

(** The exports a base contributes to the merge. *)
Definition base_exports (b : base) : odict (pyfunc instance) :=
  match b with
  | ModelBase c => _exports c
  | PlainBase => OrderedDict.empty
  | MixinBase _ => OrderedDict.empty
  end.

(** The field declarations of a class namespace, in its order. *)
Fixpoint own_fields (attrs : list (string * member))
  : list (string * BaseField.t) :=
  match attrs with
  | [] => []
  | (key, FieldMember f) :: rest => (key, f) :: own_fields rest
  | _ :: rest => own_fields rest
  end.

(** Every field declaration the merge for a class sees, in the order it sees
    them: the bases from last to first, then the class's own. *)
Definition field_declarations (bases : list base) (attrs : odict member)
  : list (string * BaseField.t) :=
  (List.concat (map base_fields (rev bases))
     ++ own_fields (OrderedDict.del attrs "export"))%list.

(** Following the spec's words for the merge: an entry that overwrites a key
    takes the position of its own insertion. *)
Definition set_repositioned (V : Type) (d : odict V) (k : string) (v : V)
  : odict V :=
  (OrderedDict.del d k ++ [(k, v)])%list.

Definition fields_as_specified (declarations : list (string * BaseField.t))
  : odict BaseField.t :=
  fold_left (fun acc kv => set_repositioned acc (fst kv) (snd kv))
            declarations OrderedDict.empty.

(** The position of a key in a list of keys. *)
Fixpoint index_of (k : string) (l : list string) : option nat :=
  match l with
  | [] => None
  | k' :: rest =>
      if String.eqb k k' then Some 0
      else match index_of k rest with
           | Some n => Some (S n)
           | None => None
           end
  end.

(** Following the spec's words for validation: every per-field failure, the
    field's name with the error its [validate] raises, in schema order. *)
Fixpoint validation_failures (fields : list (string * BaseField.t))
    (data : odict pyval) : list (string * exn) :=
  match fields with
  | [] => []
  | (name, field) :: rest =>
      match BaseField.validate field (dict_get data name) with
      | Some e => (name, e) :: validation_failures rest data
      | None => validation_failures rest data
      end
  end.

(** The converted value of a field during serialization. *)
Definition converted (self : instance) (native : bool) (name : string)
    (field : BaseField.t) : outcome pyval :=
  if native
  then ModelSerializer._execute (BaseField.to_python field)
         (dict_get (_data self) name)
  else ModelSerializer._execute (BaseField.to_data field)
         (dict_get (_data self) name).

(** The three projection policies, as [_serialize] tests them. *)
Definition projection_never (field : BaseField.t) : bool :=
  negb (py_ne (BaseField._projection field) PNone).

Definition projection_always (field : BaseField.t) : bool :=
  py_eq (BaseField._projection field) (PBool true).

Definition projection_if_present (field : BaseField.t) : bool :=
  negb (projection_never field) && negb (projection_always field).

(** The projection rule as the specification words it, for one serialization:
    a falsy converted value of an always-projected field is in the output. *)
Definition falsy_always_included (cls : ModelClass) (self : instance)
    (native : bool) : Prop :=
  forall name field field_data data,
    OrderedDict.get (_fields cls) name = Some field ->
    converted self native name field = Return field_data ->
    truthy field_data = false ->
    projection_always field = true ->
    ModelSerializer._serialize cls self native = Return data ->
    OrderedDict.mem data name = true.

(** The merge order as the specification words it, for one class statement. *)
Definition redefinition_repositions (name : string) (bases : list base)
    (attrs : odict member) : Prop :=
  OrderedDict.keys (_fields (ModelMeta.__new__ name bases attrs))
  = OrderedDict.keys (fields_as_specified (field_declarations bases attrs)).

(** Equality as the specification words it: symmetric. *)
Definition eq_symmetric (cls : ModelClass) (a b : instance) : Prop :=
  Model.__eq__ cls a b = Return EqTrue <-> Model.__eq__ cls b a = Return EqTrue.

(** Validation as the specification words it, for one class: the error that
    [validate] raises carries every per-field failure, [carried] being the
    way to read them off the error. *)
Definition aggregates_failures (cls : ModelClass)
    (carried : exn -> list (string * exn)) : Prop :=
  forall self e,
    2 <= List.length (validation_failures (_fields cls) (_data self)) ->
    Model.validate cls self = Raise e ->
    carried e = validation_failures (_fields cls) (_data self).

(** The comparison [__eq__] makes for the field named [k]. *)
Definition attr_eq (cls : ModelClass) (a b : instance) (k : string) : bool :=
  match OrderedDict.get (_fields cls) k with
  | Some field =>
      py_eq (BaseField.descriptor_get field k (_data a))
            (BaseField.descriptor_get field k (_data b))
  | None => false
  end.

(* ------------------------------------------------------------------ *)
(** ** Example models *)

(** Modelled from the spec: the attribute accessor of a field, which
    [fields.py] defines; it reads the value stored for the field, [None] when
    there is none. *)
Definition stored_value (name : string) (data : odict pyval) : pyval :=
  dict_get data name.

(** A field that accepts everything and converts nothing. *)
Definition plain_field (projection : pyval) : BaseField.t :=
  {| BaseField.validate := fun _ => None;
     BaseField.to_python := Def (fun v => Return v);
     BaseField.to_data := Def (fun v => Return v);
     BaseField._projection := projection;
     BaseField.descriptor_get := stored_value |}.

(** The same with conversions written as coroutine functions. *)
Definition async_field (projection : pyval) : BaseField.t :=
  {| BaseField.validate := fun _ => None;
     BaseField.to_python := AsyncDef (fun v => Return v);
     BaseField.to_data := AsyncDef (fun v => Return v);
     BaseField._projection := projection;
     BaseField.descriptor_get := stored_value |}.

Definition required_error (label : string) : exn :=
  Exn "ValidationError" (label ++ " is required").

(** A required field: [validate] raises on [None]. *)
Definition required_field (label : string) : BaseField.t :=
  {| BaseField.validate :=
       fun v => if is_None v then Some (required_error label) else None;
     BaseField.to_python := Def (fun v => Return v);
     BaseField.to_data := Def (fun v => Return v);
     BaseField._projection := PBool false;
     BaseField.descriptor_get := stored_value |}.

(** [class Person(Model): age = ...(required); name = ...(required)] *)
Definition Person : ModelClass :=
  ModelMeta.class_stmt "Person" [ModelBase Model.Model]
    [("age", FieldMember (required_field "age"));
     ("name", FieldMember (required_field "name"))].

(** [p = Person(); p.import_data(d)] *)
Definition person_with (id : nat) (d : odict pyval) : instance :=
  fst (Model.import_data Person
         (fst (Model.__init__ Person id (ArgDict [])))
         (ArgDict d)).

(** [class Counter(Model): count = ...(projection=True)] *)
Definition Counter : ModelClass :=
  ModelMeta.class_stmt "Counter" [ModelBase Model.Model]
    [("count", FieldMember (plain_field (PBool true)))].

Definition counter_zero : instance :=
  fst (Model.__init__ Counter 1 (ArgDict [("count", PInt 0)])).

(** A hierarchy [A -> B -> C]: [A] declares a field named [na]; [B] declares
    [nb]; [C] declares [na] again, and [nc]. *)
Definition chain_A (na : string) (fa : BaseField.t) : ModelClass :=
  ModelMeta.class_stmt "A" [ModelBase Model.Model] [(na, FieldMember fa)].

Definition chain_B (na nb : string) (fa fb : BaseField.t) : ModelClass :=
  ModelMeta.class_stmt "B" [ModelBase (chain_A na fa)]
    [(nb, FieldMember fb)].

Definition chain_C (na nb nc : string) (fa fb fa' fc : BaseField.t)
  : ModelClass :=
  ModelMeta.class_stmt "C" [ModelBase (chain_B na nb fa fb)]
    [(na, FieldMember fa'); (nc, FieldMember fc)].

(** The hierarchy with the names [a], [b] and [c]. *)
Definition hierarchy_A (fa : BaseField.t) : ModelClass :=
  chain_A "a" fa.

Definition hierarchy_B (fa fb : BaseField.t) : ModelClass :=
  chain_B "a" "b" fa fb.

Definition hierarchy_C (fa fb fa' fc : BaseField.t) : ModelClass :=
  chain_C "a" "b" "c" fa fb fa' fc.

(** [class Named(Model): name = ...; @export async def shout(self): ...]
    and the same with a plain [def]. *)
Definition shout (self : instance) : outcome pyval :=
  Return (PStr "HEY").

Definition Named (export_func : pyfunc instance) : ModelClass :=
  ModelMeta.class_stmt "Named" [ModelBase Model.Model]
    [("name", FieldMember (plain_field (PBool false)));
     ("shout", ModelMeta.export export_func)].

Definition named_x : instance :=
  fst (Model.__init__ (Named (AsyncDef shout)) 1
         (ArgDict [("name", PStr "x")])).

(** [class Tagged(Model): class Meta: name = 'tags'; _hidden = 1] *)
Definition Tagged : ModelClass :=
  ModelMeta.class_stmt "Tagged" [ModelBase Model.Model]
    [("Meta", OtherMember [("__module__", PStr "app");
                           ("_hidden", PInt 1);
                           ("name", PStr "tags")]);
     ("label", FieldMember (plain_field (PBool false)))].

(** [Named()], with an empty store *)
Definition named_blank : instance :=
  fst (Model.__init__ (Named (AsyncDef shout)) 2 (ArgDict [])).

(** [class Contact(Model)] with three required fields *)
Definition Contact : ModelClass :=
  ModelMeta.class_stmt "Contact" [ModelBase Model.Model]
    [("age", FieldMember (required_field "age"));
     ("name", FieldMember (required_field "name"));
     ("email", FieldMember (required_field "email"))].

(** [c = Contact(); c.import_data(d)] *)
Definition contact_with (id : nat) (d : odict pyval) : instance :=
  fst (Model.import_data Contact
         (fst (Model.__init__ Contact id (ArgDict [])))
         (ArgDict d)).

(** [class Delayed(Model): name = ...] with conversions that are coroutine
    functions, and an instance whose store holds a name. *)
Definition Delayed : ModelClass :=
  ModelMeta.class_stmt "Delayed" [ModelBase Model.Model]
    [("name", FieldMember (async_field (PBool false)))].

Definition delayed_x : instance :=
  {| oid := 3; type_name := "Delayed"; _data := [("name", PStr "x")] |}.

(** [class Pair(Model): a = ...; b = ...] *)
Definition Pair : ModelClass :=
  ModelMeta.class_stmt "Pair" [ModelBase Model.Model]
    [("a", FieldMember (plain_field (PBool false)));
     ("b", FieldMember (plain_field (PBool false)))].

(** [p = Pair(); p.import_data(d1); p.import_data(d2); ...] *)
Definition pair_after (imports : list (odict pyval)) : instance :=
  fold_left (fun self d => fst (Model.import_data Pair self (ArgDict d)))
            imports (fst (Model.__init__ Pair 4 (ArgDict []))).

(* ------------------------------------------------------------------ *)
(** ** Further notions and examples *)

(** The export declarations of a class namespace, in its order. *)
Fixpoint own_exports (attrs : list (string * member))
  : list (string * pyfunc instance) :=
  match attrs with
  | [] => []
  | (key, ExportMember func) :: rest => (key, func) :: own_exports rest
  | _ :: rest => own_exports rest
  end.

(** Every export declaration the merge for a class sees, in the order it
    sees them. *)
Definition export_declarations (bases : list base) (attrs : odict member)
  : list (string * pyfunc instance) :=
  (List.concat (map base_exports (rev bases))
     ++ own_exports (OrderedDict.del attrs "export"))%list.

(** Whether the field loop of [_serialize] puts the field in the output. *)
Definition projected (self : instance) (native : bool)
    (entry : string * BaseField.t) : bool :=
  match converted self native (fst entry) (snd entry) with
  | Return field_data =>
      (truthy field_data && negb (projection_never (snd entry)))
      || (is_None field_data && projection_always (snd entry))
  | Raise _ => false
  end.

(** The conversion [_convert] calls for a field. *)
Definition conversion (native : bool) (field : BaseField.t) : pyfunc pyval :=
  if native then BaseField.to_python field else BaseField.to_data field.

(** The value a key of an imported mapping takes over the stored one. *)
Definition merged_value (self : instance) (d : odict pyval) (name : string)
  : pyval :=
  match OrderedDict.get d name with
  | Some v => v
  | None => dict_get (_data self) name
  end.

(** [class Exporting(Model): export = ...; x = ...]: a field bound to the
    name of the decorator. *)
Definition Exporting : ModelClass :=
  ModelMeta.class_stmt "Exporting" [ModelBase Model.Model]
    [("export", FieldMember (plain_field (PBool false)));
     ("x", FieldMember (plain_field (PBool false)))].

(** [class SubTagged(Tagged): extra = ...], with no [Meta] of its own. *)
Definition SubTagged : ModelClass :=
  ModelMeta.class_stmt "SubTagged" [ModelBase Tagged]
    [("extra", FieldMember (plain_field (PBool false)))].

(** A field whose [to_python] accepts integers and [None] and raises on
    anything else. *)
Definition int_field : BaseField.t :=
  {| BaseField.validate := fun _ => None;
     BaseField.to_python :=
       Def (fun v => match v with
                     | PInt _ | PNone => Return v
                     | _ => Raise (ValueError "not an integer")
                     end);
     BaseField.to_data := Def (fun v => Return v);
     BaseField._projection := PBool false;
     BaseField.descriptor_get := stored_value |}.

(** [class Sized(Model): size = ...(integer)] *)
Definition Sized : ModelClass :=
  ModelMeta.class_stmt "Sized" [ModelBase Model.Model]
    [("size", FieldMember int_field)].

Definition sized_blank : instance :=
  fst (Model.__init__ Sized 5 (ArgDict [])).

(** [class Shown(Model)]: one field of each projection, and an export. *)
Definition Shown : ModelClass :=
  ModelMeta.class_stmt "Shown" [ModelBase Model.Model]
    [("hidden", FieldMember (plain_field PNone));
     ("kept", FieldMember (plain_field (PBool true)));
     ("sparse", FieldMember (plain_field (PBool false)));
     ("title", FieldMember (plain_field (PBool false)));
     ("shout", ModelMeta.export (AsyncDef shout))].

Definition shown_titled : instance :=
  fst (Model.__init__ Shown 6
         (ArgDict [("title", PStr "t"); ("hidden", PInt 1)])).

(* ------------------------------------------------------------------ *)
(** ** WebsocketMultiplexer: the table of routers

    [tbone/dispatch/multiplexer.py].  The application, the routers and the
    formatter are values of types left open; [dispatch], which gathers the
    routers' coroutines and traps every exception in the debugger, is not
    modelled. *)

Definition KeyError (key : string) : exn := Exn "KeyError" key.

Module WebsocketMultiplexer.
Section Multiplexer.
Variables App Router Formatter : Type.

Record t : Type := {
  app : App;
  routers : odict Router;
  formatter : Formatter
}.

(** [WebsocketMultiplexer(app)], [JSONFormatter()] being [json]. *)
Definition __init__ (json : Formatter) (the_app : App) : t :=
  {| app := the_app; routers := OrderedDict.empty; formatter := json |}.

(** [self.routers[name] = router] *)
Definition add_router (self : t) (name : string) (router : Router) : t :=
  {| app := app self;
     routers := OrderedDict.set (routers self) name router;
     formatter := formatter self |}.

(** [del self.routers[name]] *)
Definition remove_router (self : t) (name : string) : t * outcome unit :=
  if OrderedDict.mem (routers self) name
  then ({| app := app self;
           routers := OrderedDict.del (routers self) name;
           formatter := formatter self |}, Return tt)
  else (self, Raise (KeyError name)).
End Multiplexer.
End WebsocketMultiplexer.


(** [class Mixed(Model, Mixin): label = ...], where the plain class [Mixin]
    has [class Meta: name = 'mixed'] and [Mixed] has no [Meta] of its own. *)
Definition Mixed : ModelClass :=
  ModelMeta.class_stmt "Mixed"
    [ModelBase Model.Model; MixinBase [("name", PStr "mixed")]]
    [("label", FieldMember (plain_field (PBool false)))].

(* ------------------------------------------------------------------ *)
(** * Properties *)

(** ** The examples, run *)

Example person_schema :
  Model.fields Person = ["age"; "name"]
  /\ Model.fields Model.Model = [].
Proof. split; reflexivity. Qed.

Example export_is_not_a_field :
  OrderedDict.keys (_fields (Named (AsyncDef shout))) = ["name"]
  /\ OrderedDict.keys (_exports (Named (AsyncDef shout))) = ["shout"].
Proof. split; reflexivity. Qed.

Example tagged_options :
  ModelOptions.getattr (_meta Tagged) "name" = Some (PStr "tags")
  /\ ModelOptions.getattr (_meta Tagged) "namespace" = Some PNone
  /\ ModelOptions.getattr (_meta Tagged) "_hidden" = None.
Proof. repeat split; reflexivity. Qed.

Example delayed_to_data :
  ModelSerializer.to_data Delayed delayed_x = Return [("name", PStr "x")]
  /\ ModelSerializer.to_python Delayed delayed_x = Return [("name", PStr "x")].
Proof. split; reflexivity. Qed.

Example partial_imports_merge :
  _data (pair_after [[("a", PInt 1)]; [("b", PInt 2)]])
  = [("a", PInt 1); ("b", PInt 2)]
  /\ _data (pair_after [[("a", PInt 1)]; [("b", PInt 2)]; [("a", PInt 3)]])
     = [("a", PInt 3); ("b", PInt 2)].
Proof. split; reflexivity. Qed.

Example mixin_configures_options :
  ModelOptions.getattr (_meta Mixed) "name" = Some (PStr "mixed")
  /\ Model.fields Mixed = ["label"].
Proof. split; reflexivity. Qed.

Example construction_validates :
  snd (Model.__init__ Person 1 (ArgDict [("name", PStr "x")]))
  = Raise (required_error "age")
  /\ snd (Model.__init__ Person 1 (ArgDict [])) = Return tt.
Proof. split; reflexivity. Qed.

(** ** Dictionaries *)

Section DictFacts.
Variable V : Type.
Implicit Types (d : odict V) (k : string) (v : V).

Lemma get_set_eq d k v :
  OrderedDict.get (OrderedDict.set d k v) k = Some v.
Proof.
  induction d as [|[k' v'] rest IH]; simpl.
  - now rewrite String.eqb_refl.
  - destruct (String.eqb k k') eqn:E; simpl; rewrite E; auto.
Qed.

Lemma get_set_neq d k k' v :
  k <> k' ->
  OrderedDict.get (OrderedDict.set d k v) k' = OrderedDict.get d k'.
Proof.
  intros Hne. induction d as [|[k0 v0] rest IH]; simpl.
  - destruct (String.eqb k' k) eqn:E; auto.
    apply String.eqb_eq in E. congruence.
  - destruct (String.eqb k k0) eqn:E; simpl.
    + apply String.eqb_eq in E. subst k0.
      destruct (String.eqb k' k) eqn:E'; auto.
      apply String.eqb_eq in E'. congruence.
    + now rewrite IH.
Qed.

Lemma get_None_iff d k :
  OrderedDict.get d k = None <-> ~ In k (OrderedDict.keys d).
Proof.
  induction d as [|[k' v'] rest IH]; simpl.
  - tauto.
  - destruct (String.eqb k k') eqn:E.
    + apply String.eqb_eq in E. subst. split; [discriminate | tauto].
    + apply String.eqb_neq in E. rewrite IH. split.
      * intros H [H' | H']; [congruence | tauto].
      * tauto.
Qed.

Lemma mem_true_iff d k :
  OrderedDict.mem d k = true <-> In k (OrderedDict.keys d).
Proof.
  unfold OrderedDict.mem.
  destruct (OrderedDict.get d k) eqn:E.
  - split; auto. intros _.
    destruct (in_dec string_dec k (OrderedDict.keys d)) as [H | H]; auto.
    apply get_None_iff in H. congruence.
  - split; [discriminate|]. intros H. apply get_None_iff in E. tauto.
Qed.

Lemma mem_false_iff d k :
  OrderedDict.mem d k = false <-> ~ In k (OrderedDict.keys d).
Proof.
  rewrite <- mem_true_iff. destruct (OrderedDict.mem d k); split; congruence.
Qed.

Lemma get_Some_In d k v :
  OrderedDict.get d k = Some v -> In (k, v) d.
Proof.
  induction d as [|[k' v'] rest IH]; simpl; [discriminate|].
  destruct (String.eqb k k') eqn:E.
  - apply String.eqb_eq in E. intros [= ->]. subst. now left.
  - auto.
Qed.

Lemma In_get_Some d k v :
  NoDup (OrderedDict.keys d) -> In (k, v) d -> OrderedDict.get d k = Some v.
Proof.
  induction d as [|[k' v'] rest IH]; simpl; [tauto|].
  intros Hnd [H | H].
  - injection H as -> ->. now rewrite String.eqb_refl.
  - inversion Hnd as [|? ? Hnotin Hnd']; subst.
    destruct (String.eqb k k') eqn:E; auto.
    apply String.eqb_eq in E. subst k'.
    exfalso. apply Hnotin. change k with (fst (k, v)). now apply in_map.
Qed.

(** Assignment leaves a key that is there where it is, and puts a new key
    last. *)
Lemma keys_set d k v :
  OrderedDict.keys (OrderedDict.set d k v)
  = if OrderedDict.mem d k then OrderedDict.keys d
    else (OrderedDict.keys d ++ [k])%list.
Proof.
  unfold OrderedDict.mem.
  induction d as [|[k' v'] rest IH]; simpl; auto.
  destruct (String.eqb k k') eqn:E; simpl; auto.
  rewrite IH. now destruct (OrderedDict.get rest k).
Qed.

Lemma In_keys_set d k v k' :
  In k' (OrderedDict.keys (OrderedDict.set d k v))
  <-> k' = k \/ In k' (OrderedDict.keys d).
Proof.
  rewrite keys_set. destruct (OrderedDict.mem d k) eqn:E.
  - apply mem_true_iff in E. split; auto. intros [-> | H]; auto.
  - rewrite in_app_iff. simpl. intuition.
Qed.

Lemma NoDup_keys_set d k v :
  NoDup (OrderedDict.keys d) ->
  NoDup (OrderedDict.keys (OrderedDict.set d k v)).
Proof.
  intros Hnd. rewrite keys_set. destruct (OrderedDict.mem d k) eqn:E; auto.
  apply mem_false_iff in E.
  apply NoDup_rev in Hnd. rewrite <- (rev_involutive (_ ++ _)%list).
  apply NoDup_rev. rewrite rev_app_distr. simpl. constructor; auto.
  now rewrite <- in_rev.
Qed.

Lemma NoDup_keys_fold_set (l : list (string * V)) d :
  NoDup (OrderedDict.keys d) ->
  NoDup (OrderedDict.keys
           (fold_left (fun acc kv => OrderedDict.set acc (fst kv) (snd kv)) l d)).
Proof.
  revert d. induction l as [|[k v] rest IH]; simpl; auto.
  intros d Hnd. apply IH. now apply NoDup_keys_set.
Qed.

Lemma get_fold_set (l : list (string * V)) k :
  OrderedDict.get
    (fold_left (fun acc kv => OrderedDict.set acc (fst kv) (snd kv)) l
       OrderedDict.empty) k
  = OrderedDict.get (rev l) k.
Proof.
  induction l as [|[k0 v0] rest IH] using rev_ind; auto.
  rewrite fold_left_app, rev_app_distr. simpl.
  destruct (String.eqb k k0) eqn:E.
  - apply String.eqb_eq in E. subst. apply get_set_eq.
  - apply String.eqb_neq in E. rewrite get_set_neq; auto.
Qed.
End DictFacts.

(** ** First occurrences *)

Lemma filter_ne_notin (k : string) (l : list string) :
  ~ In k l -> filter (fun k' => negb (String.eqb k' k)) l = l.
Proof.
  induction l as [|x rest IH]; simpl; auto.
  intros H. destruct (String.eqb x k) eqn:E; simpl.
  - apply String.eqb_eq in E. tauto.
  - f_equal. tauto.
Qed.

Lemma In_first_occurrences (k : string) (l : list string) :
  In k (first_occurrences l) <-> In k l.
Proof.
  induction l as [|x rest IH]; simpl; [tauto|].
  rewrite filter_In, IH.
  destruct (String.eqb k x) eqn:E; simpl.
  - apply String.eqb_eq in E. intuition.
  - apply String.eqb_neq in E. intuition congruence.
Qed.

Lemma first_occurrences_NoDup (l : list string) :
  NoDup l -> first_occurrences l = l.
Proof.
  induction 1 as [|x rest Hnotin Hnd IH]; simpl; auto.
  rewrite IH. f_equal. now apply filter_ne_notin.
Qed.

Lemma first_occurrences_snoc (l : list string) (k : string) :
  first_occurrences (l ++ [k])
  = if in_dec string_dec k l then first_occurrences l
    else (first_occurrences l ++ [k])%list.
Proof.
  induction l as [|x rest IH]; simpl; auto.
  rewrite IH. destruct (string_dec x k) as [-> | Hne].
  - destruct (in_dec string_dec k rest); auto.
    rewrite filter_app. simpl. rewrite String.eqb_refl. simpl.
    now rewrite app_nil_r.
  - destruct (in_dec string_dec k rest); auto.
    rewrite filter_app. simpl.
    destruct (String.eqb k x) eqn:E; auto.
    apply String.eqb_eq in E. congruence.
Qed.

Lemma keys_fold_set (V : Type) (l : list (string * V)) :
  OrderedDict.keys
    (fold_left (fun acc kv => OrderedDict.set acc (fst kv) (snd kv)) l
       OrderedDict.empty)
  = first_occurrences (map fst l).
Proof.
  induction l as [|[k v] rest IH] using rev_ind; auto.
  rewrite fold_left_app, map_app. simpl.
  rewrite keys_set, first_occurrences_snoc, IH.
  destruct (OrderedDict.mem _ k) eqn:E.
  - apply mem_true_iff in E. rewrite IH, In_first_occurrences in E.
    destruct (in_dec string_dec k (map fst rest)); tauto.
  - apply mem_false_iff in E. rewrite IH, In_first_occurrences in E.
    destruct (in_dec string_dec k (map fst rest)); tauto.
Qed.

(** ** The schema a class statement builds *)

Lemma inherit_fst bases fields exports :
  fst (ModelMeta.inherit bases fields exports)
  = fold_left (fun acc kv => OrderedDict.set acc (fst kv) (snd kv))
      (List.concat (map base_fields bases)) fields.
Proof.
  revert fields exports.
  induction bases as [|[c| |m] rest IH]; intros fields exports; simpl; auto.
  rewrite IH, fold_left_app. reflexivity.
Qed.

Lemma inherit_snd bases fields exports :
  snd (ModelMeta.inherit bases fields exports)
  = fold_left (fun acc kv => OrderedDict.set acc (fst kv) (snd kv))
      (List.concat (map base_exports bases)) exports.
Proof.
  revert fields exports.
  induction bases as [|[c| |m] rest IH]; intros fields exports; simpl; auto.
  rewrite IH, fold_left_app. reflexivity.
Qed.

Lemma collect_fst attrs fields exports :
  fst (ModelMeta.collect attrs fields exports)
  = fold_left (fun acc kv => OrderedDict.set acc (fst kv) (snd kv))
      (own_fields attrs) fields.
Proof.
  revert fields exports.
  induction attrs as [|[key [f|func|m]] rest IH]; intros fields exports;
    simpl; auto.
Qed.

Lemma collect_snd_NoDup attrs fields exports :
  NoDup (OrderedDict.keys exports) ->
  NoDup (OrderedDict.keys (snd (ModelMeta.collect attrs fields exports))).
Proof.
  revert fields exports.
  induction attrs as [|[key [f|func|m]] rest IH]; intros fields exports Hnd;
    simpl; auto using NoDup_keys_set.
Qed.

Lemma new_fields name bases attrs :
  _fields (ModelMeta.__new__ name bases attrs)
  = fold_left (fun acc kv => OrderedDict.set acc (fst kv) (snd kv))
      (field_declarations bases attrs) OrderedDict.empty.
Proof.
  unfold ModelMeta.__new__, field_declarations.
  destruct (ModelMeta.inherit (rev bases) _ _) as [fields exports] eqn:Hi.
  destruct (ModelMeta.collect _ fields exports) as [fields' exports'] eqn:Hc.
  simpl. rewrite fold_left_app.
  change fields' with (fst (fields', exports')). rewrite <- Hc, collect_fst.
  change fields with (fst (fields, exports)). rewrite <- Hi, inherit_fst.
  reflexivity.
Qed.

(** The keys of a schema are pairwise distinct, whatever it is built from. *)
Lemma new_schema_NoDup name bases attrs :
  NoDup (OrderedDict.keys (_fields (ModelMeta.__new__ name bases attrs)))
  /\ NoDup (OrderedDict.keys (_exports (ModelMeta.__new__ name bases attrs))).
Proof.
  split.
  - rewrite new_fields. apply NoDup_keys_fold_set. constructor.
  - unfold ModelMeta.__new__.
    destruct (ModelMeta.inherit (rev bases) _ _) as [fields exports] eqn:Hi.
    destruct (ModelMeta.collect _ fields exports) as [fields' exports'] eqn:Hc.
    simpl. change exports' with (snd (fields', exports')). rewrite <- Hc.
    apply collect_snd_NoDup.
    change exports with (snd (fields, exports)). rewrite <- Hi, inherit_snd.
    apply NoDup_keys_fold_set. constructor.
Qed.

(** The same hierarchy under any three distinct names, none of them the
    name [export] of the decorator, which [__new__] deletes from the
    namespace. *)
Lemma chain_schema (na nb nc : string) (fa fb fa' fc : BaseField.t) :
  na <> nb -> na <> nc -> nb <> nc ->
  na <> "export" -> nb <> "export" -> nc <> "export" ->
  OrderedDict.keys (_fields (chain_C na nb nc fa fb fa' fc)) = [na; nb; nc]
  /\ OrderedDict.get (_fields (chain_C na nb nc fa fb fa' fc)) na = Some fa'.
Proof.
  intros Hab Hac Hbc Ha Hb Hc.
  assert (Eba : String.eqb nb na = false) by (apply String.eqb_neq; congruence).
  assert (Eca : String.eqb nc na = false) by (apply String.eqb_neq; congruence).
  assert (Ecb : String.eqb nc nb = false) by (apply String.eqb_neq; congruence).
  assert (Eab : String.eqb na nb = false) by now apply String.eqb_neq.
  assert (Ea : String.eqb na "export" = false) by now apply String.eqb_neq.
  assert (Eb : String.eqb nb "export" = false) by now apply String.eqb_neq.
  assert (Ec : String.eqb nc "export" = false) by now apply String.eqb_neq.
  assert (Ea' : String.eqb "export" na = false)
    by (apply String.eqb_neq; congruence).
  assert (Eb' : String.eqb "export" nb = false)
    by (apply String.eqb_neq; congruence).
  unfold chain_C, chain_B, chain_A, ModelMeta.class_stmt, ModelMeta.class_body,
    ModelMeta.__new__, ModelMeta.__prepare__, OrderedDict.update,
    OrderedDict.items, Model.Model.
  cbn -[String.eqb].
  repeat (rewrite ?Ea, ?Eb, ?Ec, ?Eab, ?Eba, ?Eca, ?Ecb, ?Ea', ?Eb',
            ?String.eqb_refl; cbn -[String.eqb]).
  split; reflexivity.
Qed.

(** C3.  In the hierarchy [A -> B -> C] where [A] declares field [a], [B]
    declares [b], and [C] declares [a] again and [c], the schema of [C] has
    the keys [a], [b], [c] in this order, and its [a] is the definition [C]
    gives. *)
Theorem hierarchy_schema (fa fb fa' fc : BaseField.t) :
  OrderedDict.keys (_fields (hierarchy_C fa fb fa' fc)) = ["a"; "b"; "c"]
  /\ OrderedDict.get (_fields (hierarchy_C fa fb fa' fc)) "a" = Some fa'
  /\ OrderedDict.get (_fields (hierarchy_C fa fb fa' fc)) "b" = Some fb
  /\ OrderedDict.get (_fields (hierarchy_C fa fb fa' fc)) "c" = Some fc.
Proof.
  repeat split; reflexivity.
Qed.

(** C4, as the code has it.  For every class statement the keys of the merged
    schema are the declared field names in the order of their first
    appearance in the merge (bases from last to first, then the class's own
    namespace), each bound to its last declaration: redefining an inherited
    name replaces the definition and leaves the key where the name first
    appeared. *)
Theorem merge_keeps_first_position name bases attrs :
  OrderedDict.keys (_fields (ModelMeta.__new__ name bases attrs))
  = first_occurrences (map fst (field_declarations bases attrs))
  /\ (forall k,
        OrderedDict.get (_fields (ModelMeta.__new__ name bases attrs)) k
        = OrderedDict.get (rev (field_declarations bases attrs)) k)
  /\ (forall (d : odict BaseField.t) k f,
        OrderedDict.keys (OrderedDict.set d k f)
        = if OrderedDict.mem d k then OrderedDict.keys d
          else (OrderedDict.keys d ++ [k])%list).
Proof.
  rewrite new_fields. split; [|split].
  - apply keys_fold_set.
  - intros k. apply get_fold_set.
  - intros d k f. apply keys_set.
Qed.

(** C4, as the specification words it, fails on the hierarchy of C3: [C]
    redefines [a], and [a] stays first instead of moving behind [b]. *)
Lemma redefinition_keeps_position :
  let f := plain_field (PBool false) in
  let bases := [ModelBase (hierarchy_B f f)] in
  let attrs := ModelMeta.class_body
                 [("a", FieldMember f); ("c", FieldMember f)] in
  ~ redefinition_repositions "C" bases attrs
  /\ index_of "a" (OrderedDict.keys
                     (_fields (ModelMeta.__new__ "C" bases attrs))) = Some 0
  /\ index_of "a" (OrderedDict.keys
                     (fields_as_specified (field_declarations bases attrs)))
     = Some 1.
Proof.
  cbv zeta. split; [|split]; try reflexivity.
  unfold redefinition_repositions. vm_compute. discriminate.
Qed.

(** ** Serialization *)

(** A coroutine function and a plain function with the same body give the
    same result through [_execute]. *)
Lemma execute_uniform (A : Type) (body : A -> outcome pyval) (a : A) :
  ModelSerializer._execute (Def body) a = body a
  /\ ModelSerializer._execute (AsyncDef body) a = body a.
Proof.
  split; reflexivity.
Qed.

Lemma py_eq_None_r (x : pyval) : py_eq x PNone = true -> x = PNone.
Proof.
  destruct x; simpl; congruence.
Qed.

Lemma never_not_always (field : BaseField.t) :
  projection_never field = true -> projection_always field = false.
Proof.
  unfold projection_never, projection_always, py_ne.
  rewrite negb_involutive. intros H. apply py_eq_None_r in H.
  now rewrite H.
Qed.

(** What the field loop leaves under each key. *)
Lemma serialize_fields_get self native fields :
  forall data0 data1,
    NoDup (map fst fields) ->
    ModelSerializer.serialize_fields self native fields data0 = Return data1 ->
    (forall name, ~ In name (map fst fields) ->
                  OrderedDict.get data1 name = OrderedDict.get data0 name)
    /\ (forall name field,
          In (name, field) fields ->
          exists field_data,
            converted self native name field = Return field_data
            /\ OrderedDict.get data1 name
               = if truthy field_data && negb (projection_never field)
                 then Some field_data
                 else if is_None field_data && projection_always field
                      then Some PNone
                      else OrderedDict.get data0 name).
Proof.
  induction fields as [|[n0 f0] rest IH]; intros data0 data1 Hnd Hrun.
  - simpl in Hrun. injection Hrun as <-. split; [reflexivity | intros ? ? []].
  - inversion Hnd as [|? ? Hnotin Hnd']; subst.
    simpl in Hrun.
    change (if native
            then ModelSerializer._execute (BaseField.to_python f0)
                   (dict_get (_data self) n0)
            else ModelSerializer._execute (BaseField.to_data f0)
                   (dict_get (_data self) n0))
      with (converted self native n0 f0) in Hrun.
    destruct (converted self native n0 f0) as [fd|e] eqn:Hconv;
      simpl in Hrun; [|discriminate].
    assert (Hstep : exists data0',
               ModelSerializer.serialize_fields self native rest data0'
               = Return data1
               /\ (forall name, name <> n0 ->
                     OrderedDict.get data0' name = OrderedDict.get data0 name)
               /\ OrderedDict.get data0' n0
                  = if truthy fd && negb (projection_never f0)
                    then Some fd
                    else if is_None fd && projection_always f0
                         then Some PNone
                         else OrderedDict.get data0 n0).
    { unfold projection_never, projection_always. rewrite negb_involutive.
      destruct (truthy fd && py_ne (BaseField._projection f0) PNone);
        [|destruct (is_None fd
                    && py_eq (BaseField._projection f0) (PBool true))].
      - eexists; split; [exact Hrun|]. split.
        + intros name Hne. apply get_set_neq. congruence.
        + apply get_set_eq.
      - eexists; split; [exact Hrun|]. split.
        + intros name Hne. apply get_set_neq. congruence.
        + apply get_set_eq.
      - eexists; split; [exact Hrun|]. split; auto. }
    destruct Hstep as (data0' & Hrest & Hother & Hhere).
    destruct (IH _ _ Hnd' Hrest) as [IHout IHin].
    split.
    + intros name Hname. simpl in Hname.
      rewrite IHout by tauto. apply Hother. intros ->. tauto.
    + intros name field [Heq | Hin].
      * injection Heq as <- <-. exists fd. split; auto.
        rewrite IHout by exact Hnotin. exact Hhere.
      * destruct (IHin _ _ Hin) as (fd' & Hc' & Hget).
        exists fd'. split; auto. rewrite Hget, Hother; auto.
        intros ->. apply Hnotin. change n0 with (fst (n0, field)).
        now apply in_map.
Qed.

(** What the export loop leaves under each key. *)
Lemma serialize_exports_get self exports :
  forall data0 data1,
    ModelSerializer.serialize_exports self exports data0 = Return data1 ->
    (forall name, ~ In name (map fst exports) ->
                  OrderedDict.get data1 name = OrderedDict.get data0 name)
    /\ (NoDup (map fst exports) ->
        forall name func,
          In (name, func) exports ->
          exists v, (c <- call func self ;; await c) = Return v
                    /\ OrderedDict.get data1 name = Some v).
Proof.
  induction exports as [|[n0 f0] rest IH]; intros data0 data1 Hrun.
  - simpl in Hrun. injection Hrun as <-.
    split; [reflexivity | intros _ ? ? []].
  - simpl in Hrun.
    destruct (call f0 self) as [c|e] eqn:Hcall; simpl in Hrun; [|discriminate].
    destruct (await c) as [v|e] eqn:Hawait; simpl in Hrun; [|discriminate].
    destruct (IH _ _ Hrun) as [IHout IHin]. split.
    + intros name Hname. simpl in Hname.
      rewrite IHout by tauto. apply get_set_neq. intros ->. tauto.
    + intros Hnd name func [Heq | Hin];
        inversion Hnd as [|? ? Hnotin Hnd']; subst.
      * injection Heq as <- <-. exists v. split.
        -- rewrite Hcall. exact Hawait.
        -- rewrite IHout by exact Hnotin. apply get_set_eq.
      * now apply IHin.
Qed.

(** An export whose call does not return a coroutine object stops the export
    loop. *)
Lemma serialize_exports_plain self exports :
  forall data0 name func v,
    In (name, func) exports ->
    call func self = Return v ->
    (forall r, v <> PCoro r) ->
    returns (ModelSerializer.serialize_exports self exports data0) = false.
Proof.
  induction exports as [|[n0 f0] rest IH]; intros data0 name func v Hin Hcall Hv.
  - destruct Hin.
  - simpl. destruct Hin as [Heq | Hin].
    + injection Heq as -> ->. rewrite Hcall. simpl.
      destruct v; simpl; auto. exfalso. eapply Hv. reflexivity.
    + destruct (call f0 self) as [c|e]; simpl; auto.
      destruct (await c) as [v0|e]; simpl; auto.
      eapply IH; eauto.
Qed.

(** Serialization returns as soon as every conversion returns and every
    export, called and awaited, returns. *)
Lemma serialize_fields_returns self native fields :
  forall data0,
    (forall name field, In (name, field) fields ->
                        returns (converted self native name field) = true) ->
    returns (ModelSerializer.serialize_fields self native fields data0) = true.
Proof.
  induction fields as [|[n0 f0] rest IH]; intros data0 Hall; simpl; auto.
  change (if native
          then ModelSerializer._execute (BaseField.to_python f0)
                 (dict_get (_data self) n0)
          else ModelSerializer._execute (BaseField.to_data f0)
                 (dict_get (_data self) n0))
    with (converted self native n0 f0).
  pose proof (Hall n0 f0 (or_introl eq_refl)) as H0.
  destruct (converted self native n0 f0) as [fd|e]; [|discriminate]. simpl.
  destruct (truthy fd && _); [|destruct (is_None fd && _)];
    apply IH; intros name field Hin; apply (Hall name field); now right.
Qed.

Lemma serialize_exports_returns self exports :
  forall data0,
    (forall name func, In (name, func) exports ->
                       returns (c <- call func self ;; await c) = true) ->
    returns (ModelSerializer.serialize_exports self exports data0) = true.
Proof.
  induction exports as [|[n0 f0] rest IH]; intros data0 Hall; simpl; auto.
  pose proof (Hall n0 f0 (or_introl eq_refl)) as H0.
  destruct (call f0 self) as [c|e]; [|discriminate]. simpl in *.
  destruct (await c) as [v|e]; [|discriminate]. simpl.
  apply IH; intros name func Hin; apply (Hall name func); now right.
Qed.

Lemma serialize_returns cls self native :
  (forall name field, In (name, field) (_fields cls) ->
                      returns (converted self native name field) = true) ->
  (forall name func, In (name, func) (_exports cls) ->
                     returns (c <- call func self ;; await c) = true) ->
  returns (ModelSerializer._serialize cls self native) = true.
Proof.
  intros Hf He. unfold ModelSerializer._serialize, OrderedDict.items.
  pose proof (serialize_fields_returns self native (_fields cls)
                OrderedDict.empty Hf) as H.
  destruct (ModelSerializer.serialize_fields _ _ _ _) as [data|e];
    [|discriminate].
  simpl. now apply serialize_exports_returns.
Qed.

(** C1, as the code has it.  For a field of the schema whose name is not also
    an export, in the output of [to_data] and of [to_python]: a truthy
    converted value is included under the field's name unless the projection
    is never ([None]); a converted value that is [None] is included as [None]
    when the projection is always ([True]); a falsy converted value under the
    if-present projection, and any value under the never projection, leave
    the key out. *)
Theorem projection_rule (cls : ModelClass) (self : instance) (native : bool)
    (data : odict pyval) (name : string) (field : BaseField.t) :
  NoDup (OrderedDict.keys (_fields cls)) ->
  OrderedDict.get (_fields cls) name = Some field ->
  OrderedDict.mem (_exports cls) name = false ->
  (if native then ModelSerializer.to_python cls self
   else ModelSerializer.to_data cls self) = Return data ->
  exists field_data,
    converted self native name field = Return field_data
    /\ (truthy field_data = true -> projection_never field = false ->
        OrderedDict.get data name = Some field_data)
    /\ (is_None field_data = true -> projection_always field = true ->
        OrderedDict.get data name = Some PNone)
    /\ (truthy field_data = false -> projection_if_present field = true ->
        OrderedDict.get data name = None)
    /\ (projection_never field = true -> OrderedDict.get data name = None).
Proof.
  intros Hnd Hfield Hexp Hrun.
  assert (Hser : ModelSerializer._serialize cls self native = Return data)
    by (destruct native; exact Hrun).
  clear Hrun. unfold ModelSerializer._serialize, OrderedDict.items in Hser.
  destruct (ModelSerializer.serialize_fields self native (_fields cls)
              OrderedDict.empty) as [data0|e] eqn:Hf; simpl in Hser;
    [|discriminate].
  destruct (@serialize_fields_get _ _ _ _ _ Hnd Hf) as [_ Hin].
  destruct (Hin _ _ (@get_Some_In _ _ _ _ Hfield)) as (fd & Hconv & Hget).
  destruct (@serialize_exports_get _ _ _ _ Hser) as [Hout _].
  apply mem_false_iff in Hexp.
  rewrite <- (Hout name Hexp) in Hget. simpl in Hget.
  exists fd. split; [exact Hconv|]. repeat split.
  - intros Ht Hn. now rewrite Hget, Ht, Hn.
  - intros Hnone Ha. rewrite Hget, Hnone, Ha.
    destruct fd; try discriminate. reflexivity.
  - unfold projection_if_present. intros Ht Hp.
    apply andb_prop in Hp. destruct Hp as [_ Ha].
    apply negb_true_iff in Ha. rewrite Hget, Ht, Ha.
    simpl. now rewrite andb_false_r.
  - intros Hn. rewrite Hget, Hn, (@never_not_always _ Hn).
    now rewrite !andb_false_r.
Qed.

Lemma projection_rule_witness :
  OrderedDict.get (_fields (Named (AsyncDef shout))) "name"
  = Some (plain_field (PBool false))
  /\ ModelSerializer.to_data (Named (AsyncDef shout)) named_x
     = Return [("name", PStr "x"); ("shout", PStr "HEY")]
  /\ OrderedDict.get [("name", PStr "x"); ("shout", PStr "HEY")] "name"
     = Some (PStr "x").
Proof.
  split; [reflexivity|]. split; [reflexivity|].
  destruct (@projection_rule (Named (AsyncDef shout)) named_x false
              [("name", PStr "x"); ("shout", PStr "HEY")] "name"
              (plain_field (PBool false))
              (proj1 (new_schema_NoDup _ _ _)) eq_refl eq_refl eq_refl)
    as (fd & Hconv & Htruthy & _).
  injection Hconv as <-. apply Htruthy; reflexivity.
Defined.

(** C1, as the specification words it, fails for a falsy value that is not
    [None]: a counter at 0 with the always projection is left out. *)
Lemma falsy_always_dropped :
  ~ falsy_always_included Counter counter_zero false.
Proof.
  intros H.
  specialize (H "count" (plain_field (PBool true)) (PInt 0) OrderedDict.empty
                eq_refl eq_refl eq_refl eq_refl eq_refl).
  discriminate.
Qed.

(** C5.  What the code does with an export that is not a coroutine function:
    when calling it returns anything but a coroutine object, neither
    [to_data] nor [to_python] returns; the export loop awaits the call
    directly and does not go through [_execute]. *)
Theorem plain_export_fails (cls : ModelClass) (self : instance)
    (name : string) (func : pyfunc instance) (v : pyval) :
  OrderedDict.get (_exports cls) name = Some func ->
  call func self = Return v ->
  (forall r, v <> PCoro r) ->
  returns (ModelSerializer.to_data cls self) = false
  /\ returns (ModelSerializer.to_python cls self) = false.
Proof.
  intros Hget Hcall Hv. apply get_Some_In in Hget.
  assert (H : forall native,
             returns (ModelSerializer._serialize cls self native) = false).
  { intros native. unfold ModelSerializer._serialize, OrderedDict.items.
    destruct (ModelSerializer.serialize_fields _ _ _ _) as [data|e];
      simpl; auto.
    eapply serialize_exports_plain; eauto. }
  split; apply H.
Qed.

Lemma plain_export_fails_witness :
  ModelSerializer.to_data (Named (Def shout)) named_x
  = Raise (TypeError "object can't be used in 'await' expression")
  /\ returns (ModelSerializer.to_data (Named (Def shout)) named_x) = false
  /\ returns (ModelSerializer.to_python (Named (Def shout)) named_x) = false.
Proof.
  split; [reflexivity|].
  apply (@plain_export_fails (Named (Def shout)) named_x "shout"
           (Def (fun self => call (Def shout) self)) (PStr "HEY")
           eq_refl eq_refl).
  intros r. discriminate.
Defined.

(** C6.  Every name of the export map is a key of the output of [to_data]
    and of [to_python], bound to what the export returned when awaited,
    whatever that value is and whatever the projection of a field of the
    same name; and both views return such an output as soon as every
    conversion returns and every export, called and awaited, returns. *)
Theorem exports_always_included (cls : ModelClass) (self : instance)
    (name : string) (func : pyfunc instance) :
  NoDup (OrderedDict.keys (_exports cls)) ->
  OrderedDict.get (_exports cls) name = Some func ->
  (forall data,
      ModelSerializer.to_data cls self = Return data ->
      OrderedDict.mem data name = true
      /\ exists v, (c <- call func self ;; await c) = Return v
                   /\ OrderedDict.get data name = Some v)
  /\ (forall data,
        ModelSerializer.to_python cls self = Return data ->
        OrderedDict.mem data name = true
        /\ exists v, (c <- call func self ;; await c) = Return v
                     /\ OrderedDict.get data name = Some v)
  /\ ((forall native n f,
          In (n, f) (_fields cls) ->
          returns (converted self native n f) = true) ->
      (forall n f,
          In (n, f) (_exports cls) ->
          returns (c <- call f self ;; await c) = true) ->
      exists v primitive native_view,
        (c <- call func self ;; await c) = Return v
        /\ ModelSerializer.to_data cls self = Return primitive
        /\ OrderedDict.get primitive name = Some v
        /\ ModelSerializer.to_python cls self = Return native_view
        /\ OrderedDict.get native_view name = Some v).
Proof.
  intros Hnd Hget. apply get_Some_In in Hget.
  assert (H : forall native data,
             ModelSerializer._serialize cls self native = Return data ->
             OrderedDict.mem data name = true
             /\ exists v, (c <- call func self ;; await c) = Return v
                          /\ OrderedDict.get data name = Some v).
  { intros native data Hser.
    unfold ModelSerializer._serialize, OrderedDict.items in Hser.
    destruct (ModelSerializer.serialize_fields _ _ _ _) as [data0|e];
      simpl in Hser; [|discriminate].
    destruct (@serialize_exports_get _ _ _ _ Hser) as [_ Hin].
    destruct (Hin Hnd _ _ Hget) as (v & Hv & Hdata).
    split; [|now exists v].
    unfold OrderedDict.mem. now rewrite Hdata. }
  split; [intros data; apply H|]. split; [intros data; apply H|].
  intros Hfields Hexports.
  pose proof (@serialize_returns cls self false (Hfields false) Hexports)
    as Hdata.
  pose proof (@serialize_returns cls self true (Hfields true) Hexports)
    as Hpython.
  unfold ModelSerializer.to_data, ModelSerializer.to_python.
  destruct (ModelSerializer._serialize cls self false) as [primitive|e]
    eqn:Ed; [|discriminate].
  destruct (ModelSerializer._serialize cls self true) as [native_view|e]
    eqn:Ep; [|discriminate].
  destruct (H false primitive Ed) as (_ & v & Hv & Hgd).
  destruct (H true native_view Ep) as (_ & v' & Hv' & Hgp).
  rewrite Hv in Hv'. injection Hv' as <-.
  exists v, primitive, native_view. repeat split; auto.
Qed.

Lemma exports_always_included_witness :
  (ModelSerializer.to_data (Named (AsyncDef shout)) named_x
   = Return [("name", PStr "x"); ("shout", PStr "HEY")]
   /\ OrderedDict.mem [("name", PStr "x"); ("shout", PStr "HEY")] "shout"
      = true)
  /\ (ModelSerializer.to_python (Named (AsyncDef shout)) named_x
      = Return [("name", PStr "x"); ("shout", PStr "HEY")]
      /\ OrderedDict.mem [("name", PStr "x"); ("shout", PStr "HEY")] "shout"
         = true)
  /\ exists v primitive native_view,
       (c <- call (Def (fun self => call (AsyncDef shout) self)) named_x ;;
        await c) = Return v
       /\ ModelSerializer.to_data (Named (AsyncDef shout)) named_x
          = Return primitive
       /\ OrderedDict.get primitive "shout" = Some v
       /\ ModelSerializer.to_python (Named (AsyncDef shout)) named_x
          = Return native_view
       /\ OrderedDict.get native_view "shout" = Some v.
Proof.
  pose proof (@exports_always_included (Named (AsyncDef shout)) named_x
                "shout" (Def (fun self => call (AsyncDef shout) self))
                (proj2 (new_schema_NoDup _ _ _)) eq_refl)
    as (Hdata & Hpython & Hboth).
  split; [|split].
  - split; [reflexivity|].
    apply (Hdata [("name", PStr "x"); ("shout", PStr "HEY")] eq_refl).
  - split; [reflexivity|].
    apply (Hpython [("name", PStr "x"); ("shout", PStr "HEY")] eq_refl).
  - apply Hboth.
    + intros native n f [H | []]. injection H as <- <-.
      destruct native; reflexivity.
    + intros n f [H | []]. injection H as <- <-. reflexivity.
Defined.

(** ** Validation *)

Lemma validate_fields_first fields data :
  Model.validate_fields fields data
  = match validation_failures fields data with
    | [] => Return tt
    | (_, e) :: _ => Raise e
    end.
Proof.
  induction fields as [|[name field] rest IH]; simpl; auto.
  destruct (BaseField.validate field (dict_get data name)); auto.
Qed.

(** C2, as the code has it.  [validate] succeeds exactly when no field of the
    schema is invalid; otherwise it fails with the error raised by the first
    invalid field in schema order, and no later field is consulted. *)
Theorem validate_fails_fast (cls : ModelClass) (self : instance) :
  Model.validate cls self
  = match validation_failures (_fields cls) (_data self) with
    | [] => Return tt
    | (_, e) :: _ => Raise e
    end.
Proof.
  apply validate_fields_first.
Qed.

(** C2, as the specification words it, fails.  With required fields [age] and
    [name] and the empty mapping imported, both fields are invalid and the
    error is the one of [age]; and with a third required field, two stores
    with different sets of invalid fields fail with the same error, so no
    reading of the error yields all the failures. *)
Lemma validate_reports_first_only :
  validation_failures (_fields Person) (_data (person_with 1 []))
  = [("age", required_error "age"); ("name", required_error "name")]
  /\ Model.validate Person (person_with 1 []) = Raise (required_error "age")
  /\ ~ exists carried, aggregates_failures Contact carried.
Proof.
  split; [reflexivity|]. split; [reflexivity|].
  intros [carried H].
  pose proof (H (contact_with 1 []) (required_error "age")) as H1.
  pose proof (H (contact_with 2 [("email", PStr "x")]) (required_error "age"))
    as H2.
  assert (E1 : carried (required_error "age")
               = validation_failures (_fields Contact)
                   (_data (contact_with 1 [])))
    by (apply H1; [vm_compute; lia | reflexivity]).
  assert (E2 : carried (required_error "age")
               = validation_failures (_fields Contact)
                   (_data (contact_with 2 [("email", PStr "x")])))
    by (apply H2; [vm_compute; lia | reflexivity]).
  rewrite E1 in E2. vm_compute in E2. discriminate.
Qed.

(** ** Import *)

(** C7.  [import_data] with an argument that is not a [dict] raises, and the
    instance, its store included, is as before; the constructor, which
    imports any truthy argument, then raises the same error on a store still
    empty. *)
Theorem import_rejects_non_dict (cls : ModelClass) (self : instance)
    (v : pyval) (id : nat) :
  Model.import_data cls self (ArgOther v)
  = (self, Raise (ValueError "Cannot import data not as dict"))
  /\ _data (fst (Model.import_data cls self (ArgOther v))) = _data self
  /\ Model.__init__ cls id (ArgOther v)
     = ({| oid := id; type_name := __name__ cls;
           _data := OrderedDict.empty |},
        if truthy v
        then Raise (ValueError "Cannot import data not as dict")
        else Return tt).
Proof.
  repeat split. unfold Model.__init__. simpl. now destruct (truthy v).
Qed.

Lemma convert_fields_keys fields data native :
  forall converted_data out,
    NoDup (OrderedDict.keys converted_data ++ map fst fields) ->
    Model.convert_fields fields data native converted_data = Return out ->
    OrderedDict.keys out
    = (OrderedDict.keys converted_data ++ map fst fields)%list
    /\ (forall name, ~ In name (map fst fields) ->
          OrderedDict.get out name = OrderedDict.get converted_data name)
    /\ (forall name field,
          In (name, field) fields ->
          exists v,
            call (if native then BaseField.to_python field
                  else BaseField.to_data field) (dict_get data name)
            = Return v
            /\ OrderedDict.get out name = Some v).
Proof.
  induction fields as [|[n0 f0] rest IH]; intros acc out Hnd Hrun.
  - simpl in *. injection Hrun as <-. rewrite app_nil_r.
    repeat split; auto. intros ? ? [].
  - simpl in Hrun.
    assert (Hcall : exists v,
               call (if native then BaseField.to_python f0
                     else BaseField.to_data f0) (dict_get data n0) = Return v
               /\ Model.convert_fields rest data native
                    (OrderedDict.set acc n0 v) = Return out).
    { destruct native;
        match type of Hrun with
        | bind ?c _ = _ => destruct c as [v|e]; [|discriminate]
        end; exists v; auto. }
    destruct Hcall as (v & Hv & Hrest). clear Hrun.
    assert (Hfresh : ~ In n0 (OrderedDict.keys acc)).
    { apply NoDup_remove_2 in Hnd. rewrite in_app_iff in Hnd. tauto. }
    assert (Hnotin : ~ In n0 (map fst rest)).
    { apply NoDup_remove_2 in Hnd. rewrite in_app_iff in Hnd. tauto. }
    assert (Hkeys : OrderedDict.keys (OrderedDict.set acc n0 v)
                    = (OrderedDict.keys acc ++ [n0])%list).
    { rewrite keys_set. apply mem_false_iff in Hfresh. now rewrite Hfresh. }
    assert (Hnd' : NoDup (OrderedDict.keys (OrderedDict.set acc n0 v)
                          ++ map fst rest)).
    { rewrite Hkeys, <- app_assoc. exact Hnd. }
    destruct (IH _ _ Hnd' Hrest) as (IHk & IHout & IHin).
    split; [|split].
    + rewrite IHk, Hkeys, <- app_assoc. reflexivity.
    + intros name Hname. simpl in Hname.
      rewrite IHout by tauto. apply get_set_neq. intros ->. tauto.
    + intros name field [Heq | Hin].
      * injection Heq as <- <-. exists v. split; auto.
        rewrite IHout by exact Hnotin. apply get_set_eq.
      * now apply IHin.
Qed.

Lemma filter_all (A : Type) (f : A -> bool) (l : list A) :
  (forall x, In x l -> f x = true) -> filter f l = l.
Proof.
  induction l as [|x rest IH]; simpl; auto.
  intros H. rewrite (H x) by now left. f_equal. auto.
Qed.

Lemma iter_all_present (cls : ModelClass) (self : instance) :
  OrderedDict.keys (_data self) = OrderedDict.keys (_fields cls) ->
  Model.__iter__ cls self = Model.fields cls.
Proof.
  intros Hkeys. unfold Model.__iter__, Model.fields.
  apply filter_all. intros k Hk. apply mem_true_iff. now rewrite Hkeys.
Qed.

(** C10.  After [import_data] has returned, the store has exactly the keys of
    the schema, in schema order: keys of the input that name no field are
    not stored, every field holds what its [to_python] returned for the
    merged value, which is [None] for a field the merged mapping lacks, and
    iteration and [items] go through every field of the schema. *)
Theorem import_data_keys (cls : ModelClass) (self self' : instance)
    (d : odict pyval) :
  NoDup (OrderedDict.keys (_fields cls)) ->
  Model.import_data cls self (ArgDict d) = (self', Return tt) ->
  OrderedDict.keys (_data self') = Model.fields cls
  /\ (forall name, OrderedDict.mem (_fields cls) name = false ->
                   OrderedDict.mem (_data self') name = false)
  /\ (forall name field,
        OrderedDict.get (_fields cls) name = Some field ->
        exists v,
          call (BaseField.to_python field)
               (dict_get (OrderedDict.update (_data self) d) name) = Return v
          /\ OrderedDict.get (_data self') name = Some v)
  /\ (forall name field,
        OrderedDict.get (_fields cls) name = Some field ->
        OrderedDict.mem (OrderedDict.update (_data self) d) name = false ->
        exists v,
          call (BaseField.to_python field) PNone = Return v
          /\ OrderedDict.get (_data self') name = Some v)
  /\ Model.__iter__ cls self' = Model.fields cls
  /\ map fst (Model.items cls self') = Model.fields cls.
Proof.
  intros Hnd Himp. unfold Model.import_data in Himp.
  destruct (Model._convert cls (OrderedDict.update (_data self) d) true)
    as [out|e] eqn:Hconv; [|discriminate].
  injection Himp as <-. simpl.
  unfold Model._convert, OrderedDict.items in Hconv.
  destruct (@convert_fields_keys (_fields cls) _ true OrderedDict.empty out
              Hnd Hconv) as (Hk & _ & Hin).
  simpl in Hk. fold (OrderedDict.keys (_fields cls)) in Hk.
  assert (Hall : forall name field,
             OrderedDict.get (_fields cls) name = Some field ->
             exists v,
               call (BaseField.to_python field)
                    (dict_get (OrderedDict.update (_data self) d) name)
               = Return v
               /\ OrderedDict.get out name = Some v).
  { intros name field Hget. apply Hin. now apply get_Some_In. }
  assert (Hiter : Model.__iter__ cls (with_data self out) = Model.fields cls)
    by now apply iter_all_present.
  repeat split; auto.
  - intros name Hmem. apply mem_false_iff. rewrite Hk.
    now apply mem_false_iff.
  - intros name field Hget Habsent.
    destruct (Hall _ _ Hget) as (v & Hv & Hout). exists v. split; auto.
    unfold dict_get, OrderedDict.mem in *.
    destruct (OrderedDict.get (OrderedDict.update (_data self) d) name);
      [discriminate | exact Hv].
  - unfold Model.items. rewrite map_map. simpl. rewrite map_id. exact Hiter.
Qed.

Lemma import_data_keys_witness :
  Model.import_data Person (person_with 1 [("name", PStr "x")])
    (ArgDict [("age", PInt 3); ("nickname", PStr "y")])
  = (person_with 1 [("name", PStr "x"); ("age", PInt 3)], Return tt)
  /\ OrderedDict.keys
       (_data (person_with 1 [("name", PStr "x"); ("age", PInt 3)]))
     = ["age"; "name"].
Proof.
  split; [reflexivity|].
  apply (@import_data_keys Person (person_with 1 [("name", PStr "x")])
           (person_with 1 [("name", PStr "x"); ("age", PInt 3)])
           [("age", PInt 3); ("nickname", PStr "y")]
           (proj1 (new_schema_NoDup _ _ _)) eq_refl).
Defined.

(** ** Equality *)

Lemma py_eq_sym : forall x y, py_eq x y = py_eq y x.
Proof.
  fix IH 1. intros x y.
  destruct x as [|a|n|s|l|r], y as [|b|m|t|l'|r']; simpl; try reflexivity.
  - now destruct a, b.
  - apply Z.eqb_sym.
  - apply Z.eqb_sym.
  - apply Z.eqb_sym.
  - apply String.eqb_sym.
  - revert l'. induction l as [|u l IHl]; intros [|u' l']; simpl; auto.
    now rewrite (IH u u'), IHl.
Qed.

Lemma forallb_pointwise (A : Type) (f g : A -> bool) (l : list A) :
  (forall x, f x = g x) -> forallb f l = forallb g l.
Proof.
  intros H. induction l as [|x rest IH]; simpl; auto.
  now rewrite H, IH.
Qed.

Lemma attr_eq_sym (cls : ModelClass) (a b : instance) (k : string) :
  attr_eq cls a b k = attr_eq cls b a k.
Proof.
  unfold attr_eq. destruct (OrderedDict.get (_fields cls) k); auto.
  apply py_eq_sym.
Qed.

(** The loop of [__eq__] over names of fields never raises, and answers
    whether all the comparisons succeed. *)
Lemma eq_loop_forallb (cls : ModelClass) (a b : instance) (ks : list string) :
  (forall k, In k ks -> In k (OrderedDict.keys (_fields cls))) ->
  Model.eq_loop cls a b ks
  = Return (if forallb (attr_eq cls a b) ks then EqTrue else EqFalse).
Proof.
  induction ks as [|k rest IH]; intros Hks; simpl; auto.
  assert (Hk : In k (OrderedDict.keys (_fields cls))) by (apply Hks; now left).
  unfold Model.getattr, attr_eq at 1.
  destruct (OrderedDict.get (_fields cls) k) as [field|] eqn:Hget.
  - simpl. unfold py_ne.
    destruct (py_eq _ _); simpl; auto.
    apply IH. intros k' Hk'. apply Hks. now right.
  - apply get_None_iff in Hget. tauto.
Qed.

Lemma iter_in_fields (cls : ModelClass) (self : instance) (k : string) :
  In k (Model.__iter__ cls self)
  <-> In k (OrderedDict.keys (_fields cls))
      /\ OrderedDict.mem (_data self) k = true.
Proof.
  unfold Model.__iter__. apply filter_In.
Qed.

(** C8, as the code has it.  For two distinct instances [a] and [b] of one
    class, [a == b] holds exactly when every field of the schema for which
    [a] has data compares equal between [a] and [b]; and [a == b] and
    [b == a] agree whenever [a] and [b] have data for the same names. *)
Theorem eq_compares_present_fields (cls : ModelClass) (a b : instance) :
  oid a <> oid b ->
  type_name a = type_name b ->
  (Model.__eq__ cls a b = Return EqTrue
   <-> forall k field,
         OrderedDict.get (_fields cls) k = Some field ->
         OrderedDict.mem (_data a) k = true ->
         py_eq (BaseField.descriptor_get field k (_data a))
               (BaseField.descriptor_get field k (_data b)) = true)
  /\ ((forall k, OrderedDict.mem (_data a) k = OrderedDict.mem (_data b) k) ->
      Model.__eq__ cls a b = Model.__eq__ cls b a).
Proof.
  intros Hoid Htype.
  assert (Hab : Model.__eq__ cls a b
                = Return (if forallb (attr_eq cls a b) (Model.__iter__ cls a)
                          then EqTrue else EqFalse)).
  { unfold Model.__eq__.
    apply Nat.eqb_neq in Hoid. rewrite Hoid.
    apply String.eqb_eq in Htype. rewrite Htype. simpl.
    apply eq_loop_forallb. intros k Hk. now apply iter_in_fields in Hk. }
  split.
  - rewrite Hab. split.
    + intros H k field Hget Hmem.
      destruct (forallb _ _) eqn:Hall; [|discriminate].
      rewrite forallb_forall in Hall.
      specialize (Hall k). unfold attr_eq in Hall. rewrite Hget in Hall.
      apply Hall. apply iter_in_fields. split; auto.
      change k with (fst (k, field)). apply in_map.
      now apply get_Some_In.
    + intros H.
      assert (Hall : forallb (attr_eq cls a b) (Model.__iter__ cls a) = true).
      { apply forallb_forall. intros k Hk.
        apply iter_in_fields in Hk. destruct Hk as [Hin Hmem].
        unfold attr_eq.
        destruct (OrderedDict.get (_fields cls) k) as [field|] eqn:Hget.
        - now apply H.
        - apply get_None_iff in Hget. tauto. }
      now rewrite Hall.
  - intros Hsame.
    assert (Hiter : Model.__iter__ cls a = Model.__iter__ cls b).
    { unfold Model.__iter__. apply filter_ext. exact Hsame. }
    assert (Hba : Model.__eq__ cls b a
                  = Return (if forallb (attr_eq cls b a) (Model.__iter__ cls b)
                            then EqTrue else EqFalse)).
    { unfold Model.__eq__.
      assert (Hoid' : oid b <> oid a) by congruence.
      apply Nat.eqb_neq in Hoid'. rewrite Hoid'.
      symmetry in Htype. apply String.eqb_eq in Htype. rewrite Htype. simpl.
      apply eq_loop_forallb. intros k Hk. now apply iter_in_fields in Hk. }
    rewrite Hab, Hba, Hiter.
    rewrite (@forallb_pointwise _ (attr_eq cls a b) (attr_eq cls b a));
      [reflexivity|].
    intros k. apply attr_eq_sym.
Qed.

Lemma eq_compares_present_fields_witness :
  oid named_x <> oid named_blank
  /\ Model.__eq__ (Named (AsyncDef shout)) named_x
       (with_data named_blank [("name", PStr "y")])
     = Model.__eq__ (Named (AsyncDef shout))
         (with_data named_blank [("name", PStr "y")]) named_x.
Proof.
  assert (Hoid : oid named_x <> oid named_blank) by (simpl; lia).
  split; [exact Hoid|].
  apply (proj2 (@eq_compares_present_fields (Named (AsyncDef shout))
                  named_x (with_data named_blank [("name", PStr "y")])
                  Hoid eq_refl)).
  intros k.
  change (_data named_x) with [("name", PStr "x")].
  unfold OrderedDict.mem. simpl.
  destruct (String.eqb k "name"); reflexivity.
Defined.

(** C8, as the specification words it, fails: an instance with an empty
    store equals every instance of its class, and not the other way
    round. *)
Lemma eq_not_symmetric :
  Model.__eq__ (Named (AsyncDef shout)) named_blank named_x = Return EqTrue
  /\ Model.__eq__ (Named (AsyncDef shout)) named_x named_blank
     = Return EqFalse
  /\ ~ eq_symmetric (Named (AsyncDef shout)) named_blank named_x.
Proof.
  split; [reflexivity|]. split; [reflexivity|].
  unfold eq_symmetric. intros [H _].
  specialize (H eq_refl). vm_compute in H. discriminate.
Qed.

(** ** Options *)

Lemma copy_attrs_fold (attrs : ModelOptions.block) (self : ModelOptions.t) :
  ModelOptions.copy_attrs self attrs
  = fold_left (fun acc kv => OrderedDict.set acc (fst kv) (snd kv))
      (filter (fun av => negb (ModelOptions.startswith_underscore (fst av)))
              attrs)
      self.
Proof.
  revert self. induction attrs as [|[attr value] rest IH]; intros self;
    simpl; auto.
  destruct (negb (ModelOptions.startswith_underscore attr)); simpl; auto.
Qed.

Lemma NoDup_keys_filter (V : Type) (f : string * V -> bool)
    (l : list (string * V)) :
  NoDup (map fst l) -> NoDup (map fst (filter f l)).
Proof.
  induction l as [|x rest IH]; simpl; auto.
  intros Hnd. inversion Hnd as [|? ? Hnotin Hnd']; subst.
  destruct (f x); simpl; auto. constructor; auto.
  intros Hin. apply Hnotin. apply in_map_iff in Hin.
  destruct Hin as (y & Hy & Hin). apply filter_In in Hin.
  rewrite <- Hy. apply in_map. tauto.
Qed.

(** With a configuration block, each attribute whose name does not begin
    with an underscore is copied under its name, and no other is. *)
Lemma options_copy_public (m : ModelOptions.block) (attr : string) :
  NoDup (map fst m) ->
  (forall value,
      In (attr, value) m ->
      ModelOptions.startswith_underscore attr = false ->
      ModelOptions.getattr (ModelOptions.__init__ (Some m)) attr = Some value)
  /\ (ModelOptions.startswith_underscore attr = true ->
      OrderedDict.get (ModelOptions.__init__ (Some m)) attr = None).
Proof.
  intros Hnd. unfold ModelOptions.getattr, ModelOptions.__init__.
  rewrite copy_attrs_fold, get_fold_set.
  set (public := filter _ m).
  split.
  - intros value Hin Hpub.
    assert (Hget : OrderedDict.get (rev public) attr = Some value).
    { apply In_get_Some.
      - unfold OrderedDict.keys. rewrite map_rev. apply NoDup_rev.
        now apply NoDup_keys_filter.
      - rewrite <- in_rev. apply filter_In. simpl. now rewrite Hpub. }
    now rewrite Hget.
  - intros Hpriv. apply get_None_iff. unfold OrderedDict.keys.
    rewrite map_rev, <- in_rev. intros Hin. apply in_map_iff in Hin.
    destruct Hin as ([a v] & Ha & Hin). simpl in Ha. subst a.
    apply filter_In in Hin. simpl in Hin. rewrite Hpriv in Hin.
    destruct Hin. discriminate.
Qed.





(* ------------------------------------------------------------------ *)
(** * Further properties *)

(** ** More on dictionaries *)

Section MoreDictFacts.
Variable V : Type.
Implicit Types (d : odict V) (k : string) (v : V).

Lemma keys_rev d : OrderedDict.keys (rev d) = rev (OrderedDict.keys d).
Proof.
  unfold OrderedDict.keys. apply map_rev.
Qed.

Lemma get_rev_NoDup d k :
  NoDup (OrderedDict.keys d) ->
  OrderedDict.get (rev d) k = OrderedDict.get d k.
Proof.
  intros Hnd. destruct (OrderedDict.get d k) as [v|] eqn:E.
  - apply In_get_Some.
    + rewrite keys_rev. now apply NoDup_rev.
    + rewrite <- in_rev. now apply get_Some_In.
  - apply get_None_iff. rewrite keys_rev, <- in_rev.
    now apply get_None_iff.
Qed.

Lemma get_app (d1 d2 : odict V) k :
  OrderedDict.get (d1 ++ d2)%list k
  = match OrderedDict.get d1 k with
    | Some v => Some v
    | None => OrderedDict.get d2 k
    end.
Proof.
  induction d1 as [|[k' v'] rest IH]; simpl; auto.
  destruct (String.eqb k k'); auto.
Qed.

Lemma get_update d (src : odict V) k :
  OrderedDict.get (OrderedDict.update d src) k
  = match OrderedDict.get (rev src) k with
    | Some v => Some v
    | None => OrderedDict.get d k
    end.
Proof.
  unfold OrderedDict.update.
  induction src as [|[k0 v0] rest IH] using rev_ind; auto.
  rewrite fold_left_app, rev_app_distr. simpl.
  destruct (String.eqb k k0) eqn:E.
  - apply String.eqb_eq in E. subst. apply get_set_eq.
  - apply String.eqb_neq in E. rewrite get_set_neq; auto.
Qed.

Lemma In_keys_update d (src : odict V) k :
  In k (OrderedDict.keys (OrderedDict.update d src))
  <-> In k (OrderedDict.keys d) \/ In k (OrderedDict.keys src).
Proof.
  unfold OrderedDict.update. revert d.
  induction src as [|[k0 v0] rest IH]; intros d; simpl.
  - tauto.
  - rewrite IH, In_keys_set. intuition.
Qed.

Lemma set_fresh d k v :
  ~ In k (OrderedDict.keys d) ->
  OrderedDict.set d k v = (d ++ [(k, v)])%list.
Proof.
  unfold OrderedDict.keys.
  induction d as [|[k' v'] rest IH]; simpl; auto.
  intros H. destruct (String.eqb k k') eqn:E.
  - apply String.eqb_eq in E. subst. tauto.
  - f_equal. tauto.
Qed.

Lemma In_keys_del d k k' :
  In k' (OrderedDict.keys (OrderedDict.del d k)) -> In k' (OrderedDict.keys d).
Proof.
  unfold OrderedDict.keys.
  induction d as [|[k0 v0] rest IH]; simpl; auto.
  destruct (String.eqb k k0); simpl; tauto.
Qed.

Lemma del_removes d k :
  NoDup (OrderedDict.keys d) -> ~ In k (OrderedDict.keys (OrderedDict.del d k)).
Proof.
  induction d as [|[k0 v0] rest IH]; simpl; auto.
  intros Hnd. inversion Hnd as [|? ? Hnotin Hnd']; subst.
  destruct (String.eqb k k0) eqn:E; simpl.
  - apply String.eqb_eq in E. now subst.
  - apply String.eqb_neq in E. intros [H | H]; [congruence | tauto].
Qed.

Lemma del_fresh d k :
  ~ In k (OrderedDict.keys d) -> OrderedDict.del d k = d.
Proof.
  unfold OrderedDict.keys.
  induction d as [|[k0 v0] rest IH]; simpl; auto.
  intros H. destruct (String.eqb k k0) eqn:E.
  - apply String.eqb_eq in E. subst. tauto.
  - f_equal. tauto.
Qed.

Lemma del_set d k v :
  OrderedDict.del (OrderedDict.set d k v) k = OrderedDict.del d k.
Proof.
  induction d as [|[k0 v0] rest IH]; simpl.
  - now rewrite String.eqb_refl.
  - destruct (String.eqb k k0) eqn:E; simpl; rewrite E; auto.
    now rewrite IH.
Qed.

Lemma mem_existsb d k :
  OrderedDict.mem d k = existsb (String.eqb k) (OrderedDict.keys d).
Proof.
  unfold OrderedDict.mem.
  induction d as [|[k0 v0] rest IH]; simpl; auto.
  destruct (String.eqb k k0); auto.
Qed.
End MoreDictFacts.

Lemma filter_filter_and (A : Type) (f g : A -> bool) (l : list A) :
  filter f (filter g l) = filter (fun x => g x && f x) l.
Proof.
  induction l as [|x rest IH]; simpl; auto.
  destruct (g x); simpl; auto. destruct (f x); simpl; now rewrite IH.
Qed.

Lemma first_occurrences_app (l1 l2 : list string) :
  first_occurrences (l1 ++ l2)
  = (first_occurrences l1
     ++ filter (fun k => negb (existsb (String.eqb k) l1))
               (first_occurrences l2))%list.
Proof.
  induction l1 as [|x rest IH]; simpl.
  - symmetry. apply filter_all. auto.
  - rewrite IH, filter_app. f_equal. f_equal.
    rewrite filter_filter_and. apply filter_ext. intros k.
    now destruct (String.eqb k x), (existsb (String.eqb k) rest).
Qed.

(** ** More on the schema a class statement builds *)

Lemma collect_snd attrs fields exports :
  snd (ModelMeta.collect attrs fields exports)
  = fold_left (fun acc kv => OrderedDict.set acc (fst kv) (snd kv))
      (own_exports attrs) exports.
Proof.
  revert fields exports.
  induction attrs as [|[key [f|func|m]] rest IH]; intros fields exports;
    simpl; auto.
Qed.

Lemma new_exports name bases attrs :
  _exports (ModelMeta.__new__ name bases attrs)
  = fold_left (fun acc kv => OrderedDict.set acc (fst kv) (snd kv))
      (export_declarations bases attrs) OrderedDict.empty.
Proof.
  unfold ModelMeta.__new__, export_declarations.
  destruct (ModelMeta.inherit (rev bases) _ _) as [fields exports] eqn:Hi.
  destruct (ModelMeta.collect _ fields exports) as [fields' exports'] eqn:Hc.
  simpl. rewrite fold_left_app.
  change exports' with (snd (fields', exports')). rewrite <- Hc, collect_snd.
  change exports with (snd (fields, exports)). rewrite <- Hi, inherit_snd.
  reflexivity.
Qed.

Lemma own_fields_keys attrs k :
  In k (map fst (own_fields attrs)) -> In k (map fst attrs).
Proof.
  induction attrs as [|[key [f|func|m]] rest IH]; simpl; tauto.
Qed.

Lemma own_exports_keys attrs k :
  In k (map fst (own_exports attrs)) -> In k (map fst attrs).
Proof.
  induction attrs as [|[key [f|func|m]] rest IH]; simpl; tauto.
Qed.

Lemma class_body_NoDup decls :
  NoDup (OrderedDict.keys (ModelMeta.class_body decls)).
Proof.
  unfold ModelMeta.class_body, OrderedDict.update.
  apply NoDup_keys_fold_set. simpl. constructor; [tauto | constructor].
Qed.

Lemma In_keys_concat (V : Type) (B : Type) (f : B -> odict V)
    (bs : list B) (k : string) :
  In k (map fst (List.concat (map f bs))) ->
  exists b, In b bs /\ In k (OrderedDict.keys (f b)).
Proof.
  induction bs as [|b rest IH]; simpl; [tauto|].
  rewrite map_app, in_app_iff. intros [H | H].
  - exists b. auto.
  - destruct (IH H) as (b' & Hb' & Hk). exists b'. auto.
Qed.

(** X2.  Exports merge the way fields do: the keys of the export map of a
    class are the declared export names in the order of their first
    appearance (bases from last to first, then the class's own namespace),
    each bound to its last declaration. *)
Theorem exports_merge_like_fields (name : string) (bases : list base)
    (attrs : odict member) :
  OrderedDict.keys (_exports (ModelMeta.__new__ name bases attrs))
  = first_occurrences (map fst (export_declarations bases attrs))
  /\ (forall k,
        OrderedDict.get (_exports (ModelMeta.__new__ name bases attrs)) k
        = OrderedDict.get (rev (export_declarations bases attrs)) k).
Proof.
  rewrite new_exports. split.
  - apply keys_fold_set.
  - intros k. apply get_fold_set.
Qed.

(** X3.  The name [export] is not available to a class body: whatever the
    body binds to it, a field or an export, is deleted from the namespace
    before the members are collected, so unless a base brings it the schema
    has neither a field nor an export of that name. *)
Theorem export_name_reserved (name : string) (bases : list base)
    (decls : list (string * member)) :
  (forall b, In b bases ->
             OrderedDict.mem (base_fields b) "export" = false
             /\ OrderedDict.mem (base_exports b) "export" = false) ->
  OrderedDict.mem (_fields (ModelMeta.class_stmt name bases decls)) "export"
  = false
  /\ OrderedDict.mem (_exports (ModelMeta.class_stmt name bases decls)) "export"
     = false.
Proof.
  intros Hbases. unfold ModelMeta.class_stmt.
  assert (Hdel : ~ In "export"
                   (OrderedDict.keys
                      (OrderedDict.del (ModelMeta.class_body decls) "export")))
    by (apply del_removes, class_body_NoDup).
  split; apply mem_false_iff.
  - rewrite new_fields, keys_fold_set, In_first_occurrences.
    unfold field_declarations. rewrite map_app, in_app_iff. intros [H | H].
    + apply In_keys_concat in H. destruct H as (b & Hb & Hk).
      rewrite <- in_rev in Hb. apply Hbases in Hb. destruct Hb as [Hb _].
      apply mem_false_iff in Hb. tauto.
    + apply own_fields_keys in H. tauto.
  - rewrite new_exports, keys_fold_set, In_first_occurrences.
    unfold export_declarations. rewrite map_app, in_app_iff. intros [H | H].
    + apply In_keys_concat in H. destruct H as (b & Hb & Hk).
      rewrite <- in_rev in Hb. apply Hbases in Hb. destruct Hb as [_ Hb].
      apply mem_false_iff in Hb. tauto.
    + apply own_exports_keys in H. tauto.
Qed.

Lemma export_name_reserved_witness :
  Model.fields Exporting = ["x"]
  /\ OrderedDict.mem (_fields Exporting) "export" = false.
Proof.
  split; [reflexivity|].
  apply (@export_name_reserved "Exporting" [ModelBase Model.Model]
           [("export", FieldMember (plain_field (PBool false)));
            ("x", FieldMember (plain_field (PBool false)))]).
  intros b [<- | []]. split; reflexivity.
Defined.

(** X4.  With a single base, the fields of the base come first in the
    subclass, in the base's order, followed by the names the subclass adds;
    and a name the subclass does not declare as a field, even when it binds
    it to something else, keeps the base's definition. *)
Theorem subclass_extends_base (name : string) (c : ModelClass)
    (decls : list (string * member)) :
  NoDup (OrderedDict.keys (_fields c)) ->
  Model.fields (ModelMeta.class_stmt name [ModelBase c] decls)
  = (Model.fields c
     ++ filter (fun k => negb (OrderedDict.mem (_fields c) k))
          (first_occurrences
             (map fst (own_fields
                         (OrderedDict.del (ModelMeta.class_body decls)
                                          "export")))))%list
  /\ (forall k,
        ~ In k (map fst (own_fields
                           (OrderedDict.del (ModelMeta.class_body decls)
                                            "export"))) ->
        OrderedDict.get
          (_fields (ModelMeta.class_stmt name [ModelBase c] decls)) k
        = OrderedDict.get (_fields c) k).
Proof.
  intros Hnd. unfold Model.fields, ModelMeta.class_stmt.
  rewrite new_fields. unfold field_declarations. simpl. rewrite app_nil_r.
  split.
  - rewrite keys_fold_set, map_app, first_occurrences_app.
    fold (OrderedDict.keys (_fields c)).
    rewrite (first_occurrences_NoDup Hnd). f_equal.
    apply filter_ext. intros k. now rewrite mem_existsb.
  - intros k Hk. rewrite get_fold_set, rev_app_distr, get_app.
    assert (Hnone : OrderedDict.get
                      (rev (own_fields
                              (OrderedDict.del (ModelMeta.class_body decls)
                                               "export"))) k = None).
    { apply get_None_iff. rewrite keys_rev, <- in_rev. exact Hk. }
    rewrite Hnone. now apply get_rev_NoDup.
Qed.

Lemma subclass_extends_base_witness :
  Model.fields SubTagged = ["label"; "extra"]
  /\ OrderedDict.get (_fields SubTagged) "label"
     = OrderedDict.get (_fields Tagged) "label".
Proof.
  split; [reflexivity|].
  apply (proj2 (@subclass_extends_base "SubTagged" Tagged
                  [("extra", FieldMember (plain_field (PBool false)))]
                  (proj1 (new_schema_NoDup _ _ _)))).
  simpl. intros [H | []]. discriminate.
Defined.

(** X5.  A class that binds no [Meta] in its body takes the configuration
    block of its single base: its options are the base's options, the
    configured [name] included. *)
Theorem subclass_inherits_options (name n0 : string) (bases0 : list base)
    (attrs0 : odict member) (decls : list (string * member)) :
  ~ In "Meta" (map fst decls) ->
  _meta (ModelMeta.class_stmt name
           [ModelBase (ModelMeta.__new__ n0 bases0 attrs0)] decls)
  = _meta (ModelMeta.__new__ n0 bases0 attrs0)
  /\ Meta (ModelMeta.class_stmt name
             [ModelBase (ModelMeta.__new__ n0 bases0 attrs0)] decls)
     = Meta (ModelMeta.__new__ n0 bases0 attrs0).
Proof.
  intros Hdecl.
  assert (Hown : OrderedDict.get
                   (OrderedDict.del (ModelMeta.class_body decls) "export")
                   "Meta" = None).
  { apply get_None_iff. intros H. apply In_keys_del in H.
    unfold ModelMeta.class_body in H. apply In_keys_update in H.
    destruct H as [H | H]; [|tauto].
    simpl in H. destruct H as [H | []]. discriminate. }
  assert (Hmeta : Meta (ModelMeta.class_stmt name
                          [ModelBase (ModelMeta.__new__ n0 bases0 attrs0)]
                          decls)
                  = Meta (ModelMeta.__new__ n0 bases0 attrs0)).
  { unfold ModelMeta.class_stmt.
    unfold ModelMeta.__new__ at 1.
    destruct (ModelMeta.inherit (rev _) _ _) as [fields exports].
    destruct (ModelMeta.collect _ fields exports) as [fields' exports'].
    simpl. unfold ModelMeta.lookup_Meta. rewrite Hown. simpl.
    now destruct (Meta (ModelMeta.__new__ n0 bases0 attrs0)). }
  split; [|exact Hmeta].
  assert (Hbuilt : forall n b a,
             _meta (ModelMeta.__new__ n b a)
             = ModelOptions.__init__ (Meta (ModelMeta.__new__ n b a))).
  { intros n b a. unfold ModelMeta.__new__.
    destruct (ModelMeta.inherit (rev b) _ _) as [fields exports].
    destruct (ModelMeta.collect _ fields exports) as [fields' exports'].
    reflexivity. }
  unfold ModelMeta.class_stmt in *. now rewrite !Hbuilt, Hmeta.
Qed.

Lemma subclass_inherits_options_witness :
  __name__ SubTagged = "SubTagged"
  /\ ModelOptions.getattr (_meta SubTagged) "name" = Some (PStr "tags")
  /\ _meta SubTagged = _meta Tagged.
Proof.
  split; [reflexivity|]. split; [reflexivity|].
  assert (Hdecl : ~ In "Meta"
                    (map fst [("extra",
                               FieldMember (plain_field (PBool false)))])).
  { simpl. intros [H | []]. discriminate. }
  apply (proj1 (@subclass_inherits_options "SubTagged" "Tagged"
                  [ModelBase Model.Model]
                  (ModelMeta.class_body
                     [("Meta", OtherMember [("__module__", PStr "app");
                                            ("_hidden", PInt 1);
                                            ("name", PStr "tags")]);
                      ("label", FieldMember (plain_field (PBool false)))])
                  [("extra", FieldMember (plain_field (PBool false)))]
                  Hdecl)).
Defined.

(** ** More on serialization *)

Lemma NoDup_first_occurrences (l : list string) : NoDup (first_occurrences l).
Proof.
  induction l as [|k rest IH]; simpl; constructor.
  - rewrite filter_In, String.eqb_refl. simpl. intros [_ H]. discriminate.
  - now apply NoDup_filter.
Qed.

Lemma NoDup_app_disjoint (A : Type) (l1 l2 : list A) (a : A) :
  NoDup (l1 ++ l2) -> In a l1 -> ~ In a l2.
Proof.
  induction l1 as [|x rest IH]; simpl; [tauto|].
  intros Hnd [-> | Hin] H2; inversion Hnd as [|? ? Hnotin Hnd']; subst.
  - apply Hnotin. apply in_or_app. now right.
  - now apply IH.
Qed.

(** The field loop assigns, in schema order, the fields that are projected. *)
Lemma serialize_fields_entries self native fields :
  forall data0 data1,
    ModelSerializer.serialize_fields self native fields data0 = Return data1 ->
    exists entries,
      map fst entries = map fst (filter (projected self native) fields)
      /\ data1 = fold_left (fun acc kv => OrderedDict.set acc (fst kv) (snd kv))
                   entries data0.
Proof.
  induction fields as [|[n0 f0] rest IH]; intros data0 data1 Hrun.
  - simpl in Hrun. injection Hrun as <-. exists []. auto.
  - simpl in Hrun.
    change (if native
            then ModelSerializer._execute (BaseField.to_python f0)
                   (dict_get (_data self) n0)
            else ModelSerializer._execute (BaseField.to_data f0)
                   (dict_get (_data self) n0))
      with (converted self native n0 f0) in Hrun.
    simpl. unfold projected at 1. simpl.
    destruct (converted self native n0 f0) as [fd|e]; simpl in Hrun;
      [|discriminate].
    unfold projection_never, projection_always. rewrite negb_involutive.
    destruct (truthy fd && py_ne (BaseField._projection f0) PNone);
      [|destruct (is_None fd
                  && py_eq (BaseField._projection f0) (PBool true))];
      simpl; destruct (IH _ _ Hrun) as (entries & Hk & Hd).
    + exists ((n0, fd) :: entries). simpl. now rewrite Hk.
    + exists ((n0, PNone) :: entries). simpl. now rewrite Hk.
    + exists entries. auto.
Qed.

(** The export loop assigns every export, in the order of the export map. *)
Lemma serialize_exports_entries self exports :
  forall data0 data1,
    ModelSerializer.serialize_exports self exports data0 = Return data1 ->
    exists entries,
      map fst entries = map fst exports
      /\ data1 = fold_left (fun acc kv => OrderedDict.set acc (fst kv) (snd kv))
                   entries data0.
Proof.
  induction exports as [|[n0 f0] rest IH]; intros data0 data1 Hrun.
  - simpl in Hrun. injection Hrun as <-. exists []. auto.
  - simpl in Hrun.
    destruct (call f0 self) as [c|e]; simpl in Hrun; [|discriminate].
    destruct (await c) as [v|e]; simpl in Hrun; [|discriminate].
    destruct (IH _ _ Hrun) as (entries & Hk & Hd).
    exists ((n0, v) :: entries). simpl. now rewrite Hk.
Qed.

(** X6.  The keys of a serialized mapping come in schema order: the
    projected fields in the order of the field map, then the exports in the
    order of the export map, a name that is both keeping its first place.
    When no name is both a field and an export, the keys are exactly the
    projected field names followed by the export names. *)
Theorem serialized_key_order (cls : ModelClass) (self : instance)
    (native : bool) (data : odict pyval) :
  ModelSerializer._serialize cls self native = Return data ->
  OrderedDict.keys data
  = first_occurrences
      (map fst (filter (projected self native) (_fields cls))
       ++ OrderedDict.keys (_exports cls))
  /\ (NoDup (OrderedDict.keys (_fields cls)
             ++ OrderedDict.keys (_exports cls)) ->
      OrderedDict.keys data
      = (map fst (filter (projected self native) (_fields cls))
         ++ OrderedDict.keys (_exports cls))%list).
Proof.
  intros Hser. unfold ModelSerializer._serialize, OrderedDict.items in Hser.
  destruct (ModelSerializer.serialize_fields self native (_fields cls)
              OrderedDict.empty) as [data0|e] eqn:Hf; simpl in Hser;
    [|discriminate].
  destruct (serialize_fields_entries _ _ _ _ Hf) as (ef & Hkf & Hdf).
  destruct (serialize_exports_entries _ _ _ Hser) as (ee & Hke & Hde).
  assert (Hkeys : OrderedDict.keys data
                  = first_occurrences
                      (map fst (filter (projected self native) (_fields cls))
                       ++ OrderedDict.keys (_exports cls))).
  { rewrite Hde, Hdf, <- fold_left_app, keys_fold_set, map_app, Hkf, Hke.
    reflexivity. }
  split; [exact Hkeys|].
  intros Hnd. rewrite Hkeys. apply first_occurrences_NoDup.
  apply NoDup_app.
  - apply NoDup_keys_filter. now apply NoDup_app_remove_r in Hnd.
  - now apply NoDup_app_remove_l in Hnd.
  - intros a Ha. eapply NoDup_app_disjoint; [exact Hnd|].
    apply in_map_iff in Ha. destruct Ha as (x & Hx & Hin).
    apply filter_In in Hin. rewrite <- Hx. apply in_map. tauto.
Qed.

Lemma serialized_key_order_witness :
  ModelSerializer.to_data Shown shown_titled
  = Return [("kept", PNone); ("title", PStr "t"); ("shout", PStr "HEY")]
  /\ OrderedDict.keys
       [("kept", PNone); ("title", PStr "t"); ("shout", PStr "HEY")]
     = (map fst (filter (projected shown_titled false) (_fields Shown))
        ++ OrderedDict.keys (_exports Shown))%list.
Proof.
  split; [reflexivity|].
  apply (proj2 (@serialized_key_order Shown shown_titled false
                  [("kept", PNone); ("title", PStr "t");
                   ("shout", PStr "HEY")] eq_refl)).
  simpl. repeat constructor; simpl; intuition discriminate.
Defined.

Lemma serialize_fields_returns_inv self native fields :
  forall data0,
    returns (ModelSerializer.serialize_fields self native fields data0) = true ->
    forall name field,
      In (name, field) fields ->
      returns (converted self native name field) = true.
Proof.
  induction fields as [|[n0 f0] rest IH]; intros data0 Hrun name field Hin.
  - destruct Hin.
  - simpl in Hrun.
    change (if native
            then ModelSerializer._execute (BaseField.to_python f0)
                   (dict_get (_data self) n0)
            else ModelSerializer._execute (BaseField.to_data f0)
                   (dict_get (_data self) n0))
      with (converted self native n0 f0) in Hrun.
    destruct (converted self native n0 f0) as [fd|e] eqn:Hc; simpl in Hrun;
      [|discriminate].
    destruct Hin as [Heq | Hin].
    + injection Heq as <- <-. now rewrite Hc.
    + destruct (truthy fd && _) in Hrun;
        [|destruct (is_None fd && _) in Hrun]; eapply IH; eauto.
Qed.

Lemma serialize_exports_returns_inv self exports :
  forall data0,
    returns (ModelSerializer.serialize_exports self exports data0) = true ->
    forall name func,
      In (name, func) exports ->
      returns (c <- call func self ;; await c) = true.
Proof.
  induction exports as [|[n0 f0] rest IH]; intros data0 Hrun name func Hin.
  - destruct Hin.
  - simpl in Hrun.
    destruct (call f0 self) as [c|e] eqn:Hcall; simpl in Hrun; [|discriminate].
    destruct (await c) as [v|e] eqn:Hawait; simpl in Hrun; [|discriminate].
    destruct Hin as [Heq | Hin].
    + injection Heq as <- <-. rewrite Hcall. simpl. now rewrite Hawait.
    + eapply IH; eauto.
Qed.

(** X7.  Serialization returns a mapping exactly when the conversion of
    every field returns, whatever the field's projection, and every export,
    called and awaited, returns; otherwise the exception propagates and no
    mapping is produced. *)
Theorem serialization_all_or_nothing (cls : ModelClass) (self : instance)
    (native : bool) :
  returns (ModelSerializer._serialize cls self native) = true
  <-> (forall name field,
          In (name, field) (_fields cls) ->
          returns (converted self native name field) = true)
      /\ (forall name func,
            In (name, func) (_exports cls) ->
            returns (c <- call func self ;; await c) = true).
Proof.
  split.
  - intros Hrun. unfold ModelSerializer._serialize, OrderedDict.items in Hrun.
    destruct (ModelSerializer.serialize_fields self native (_fields cls)
                OrderedDict.empty) as [data0|e] eqn:Hf; simpl in Hrun;
      [|discriminate].
    split.
    + eapply serialize_fields_returns_inv. now rewrite Hf.
    + eapply serialize_exports_returns_inv. exact Hrun.
  - intros [Hf He]. now apply serialize_returns.
Qed.

Lemma serialization_all_or_nothing_witness :
  returns (ModelSerializer._serialize Shown shown_titled true) = true
  /\ returns (converted shown_titled true "hidden" (plain_field PNone)) = true.
Proof.
  split; [reflexivity|].
  apply (proj1 (proj1 (@serialization_all_or_nothing Shown shown_titled true)
                  eq_refl) "hidden" (plain_field PNone)).
  simpl. auto.
Defined.

(** ** More on the instance store *)

Lemma dict_get_update (self : instance) (d : odict pyval) (name : string) :
  NoDup (OrderedDict.keys d) ->
  dict_get (OrderedDict.update (_data self) d) name = merged_value self d name.
Proof.
  intros Hnd. unfold dict_get, merged_value.
  rewrite get_update, get_rev_NoDup by exact Hnd.
  now destruct (OrderedDict.get d name).
Qed.

Lemma convert_step (native : bool) (field : BaseField.t) (v : pyval) :
  (if native
   then call (BaseField.to_python field) v
   else call (BaseField.to_data field) v)
  = call (conversion native field) v.
Proof.
  now destruct native.
Qed.

Lemma convert_fields_raises fields data native :
  forall converted_data e,
    Model.convert_fields fields data native converted_data = Raise e ->
    exists name field,
      In (name, field) fields
      /\ call (conversion native field) (dict_get data name) = Raise e.
Proof.
  induction fields as [|[n0 f0] rest IH]; intros acc e Hrun.
  - discriminate.
  - simpl in Hrun. rewrite convert_step in Hrun.
    destruct (call (conversion native f0) (dict_get data n0)) as [v|e0] eqn:Hc;
      simpl in Hrun.
    + destruct (IH _ _ Hrun) as (name & field & Hin & Hcall).
      exists name, field. split; [now right | exact Hcall].
    + injection Hrun as <-. exists n0, f0. split; [now left | exact Hc].
Qed.

(** Converting a store whose values the conversions leave alone gives the
    store back. *)
Lemma convert_fields_fixed fields data native :
  forall converted_data tail,
    data = (converted_data ++ tail)%list ->
    map fst tail = map fst fields ->
    NoDup (OrderedDict.keys converted_data ++ map fst fields) ->
    (forall name field v,
        In (name, field) fields ->
        OrderedDict.get data name = Some v ->
        call (conversion native field) v = Return v) ->
    Model.convert_fields fields data native converted_data = Return data.
Proof.
  induction fields as [|[n0 f0] rest IH]; intros acc tail Hdata Hkeys Hnd Hfix.
  - destruct tail; [|discriminate]. rewrite app_nil_r in Hdata.
    simpl. now rewrite Hdata.
  - destruct tail as [|[n0' v0] tail']; [discriminate|].
    simpl in Hkeys. injection Hkeys as -> Hkeys.
    assert (Hfresh : ~ In n0 (OrderedDict.keys acc)).
    { apply NoDup_remove_2 in Hnd. rewrite in_app_iff in Hnd. tauto. }
    assert (Hget : OrderedDict.get data n0 = Some v0).
    { rewrite Hdata, get_app.
      apply get_None_iff in Hfresh. rewrite Hfresh.
      simpl. now rewrite String.eqb_refl. }
    simpl. rewrite convert_step.
    unfold dict_get at 1. rewrite Hget.
    rewrite (Hfix n0 f0 v0 (or_introl eq_refl) Hget). simpl.
    rewrite set_fresh by exact Hfresh.
    apply (IH _ tail').
    + rewrite Hdata, <- app_assoc. reflexivity.
    + exact Hkeys.
    + unfold OrderedDict.keys in *. rewrite map_app, <- app_assoc. exact Hnd.
    + intros name field v Hin. apply Hfix. now right.
Qed.

(** X8.  [export_data] returns the schema's shape whatever the projections:
    one key per field, in schema order, each bound to what the conversion
    chosen by [native] returned for the stored value ([None] when there is
    none). *)
Theorem export_data_schema_shaped (cls : ModelClass) (self : instance)
    (native : bool) (out : odict pyval) :
  NoDup (OrderedDict.keys (_fields cls)) ->
  Model.export_data cls self native = Return out ->
  OrderedDict.keys out = Model.fields cls
  /\ (forall name field,
        OrderedDict.get (_fields cls) name = Some field ->
        exists v,
          call (conversion native field) (dict_get (_data self) name)
          = Return v
          /\ OrderedDict.get out name = Some v).
Proof.
  intros Hnd Hexp.
  unfold Model.export_data, Model._convert, OrderedDict.items in Hexp.
  destruct (@convert_fields_keys (_fields cls) _ native OrderedDict.empty out
              Hnd Hexp) as (Hk & _ & Hin).
  split; [exact Hk|].
  intros name field Hget. apply Hin. now apply get_Some_In.
Qed.

Lemma export_data_schema_shaped_witness :
  Model.export_data Shown shown_titled false
  = Return [("hidden", PInt 1); ("kept", PNone); ("sparse", PNone);
            ("title", PStr "t")]
  /\ OrderedDict.keys [("hidden", PInt 1); ("kept", PNone); ("sparse", PNone);
                       ("title", PStr "t")]
     = Model.fields Shown.
Proof.
  split; [reflexivity|].
  apply (proj1 (@export_data_schema_shaped Shown shown_titled false
                  [("hidden", PInt 1); ("kept", PNone); ("sparse", PNone);
                   ("title", PStr "t")]
                  (proj1 (new_schema_NoDup _ _ _)) eq_refl)).
Defined.

(** X9.  [import_data] and [export_data] call a conversion without awaiting
    it: for a field whose [to_python] is a coroutine function they keep the
    coroutine object, where serialization awaits it and gets the value. *)
Theorem convert_does_not_await (cls : ModelClass) (self : instance)
    (name : string) (field : BaseField.t) (body : pyval -> outcome pyval) :
  NoDup (OrderedDict.keys (_fields cls)) ->
  OrderedDict.get (_fields cls) name = Some field ->
  BaseField.to_python field = AsyncDef body ->
  (forall d self',
      Model.import_data cls self (ArgDict d) = (self', Return tt) ->
      OrderedDict.get (_data self') name
      = Some (PCoro (body (dict_get (OrderedDict.update (_data self) d)
                                    name))))
  /\ (forall out,
        Model.export_data cls self true = Return out ->
        OrderedDict.get out name
        = Some (PCoro (body (dict_get (_data self) name))))
  /\ converted self true name field = body (dict_get (_data self) name).
Proof.
  intros Hnd Hget Hasync.
  assert (Hconv : forall data out,
             Model._convert cls data true = Return out ->
             OrderedDict.get out name
             = Some (PCoro (body (dict_get data name)))).
  { intros data out Hc. unfold Model._convert, OrderedDict.items in Hc.
    destruct (@convert_fields_keys (_fields cls) _ true OrderedDict.empty out
                Hnd Hc) as (_ & _ & Hin).
    destruct (Hin _ _ (@get_Some_In _ _ _ _ Hget)) as (v & Hv & Hout).
    rewrite Hasync in Hv. simpl in Hv. injection Hv as <-. exact Hout. }
  split; [|split].
  - intros d self' Himp. unfold Model.import_data in Himp.
    destruct (Model._convert cls (OrderedDict.update (_data self) d) true)
      as [out|e] eqn:Hc; [|discriminate].
    injection Himp as <-. simpl. now apply Hconv.
  - intros out Hexp. now apply Hconv.
  - unfold converted. now rewrite Hasync.
Qed.

Lemma convert_does_not_await_witness :
  Model.export_data Delayed delayed_x true
  = Return [("name", PCoro (Return (PStr "x")))]
  /\ ModelSerializer.to_python Delayed delayed_x
     = Return [("name", PStr "x")]
  /\ OrderedDict.get [("name", PCoro (Return (PStr "x")))] "name"
     = Some (PCoro (Return (PStr "x"))).
Proof.
  split; [reflexivity|]. split; [reflexivity|].
  apply (proj1 (proj2 (@convert_does_not_await Delayed delayed_x "name"
                         (async_field (PBool false))
                         (fun v => Return v)
                         (proj1 (new_schema_NoDup _ _ _)) eq_refl eq_refl))
               [("name", PCoro (Return (PStr "x")))] eq_refl).
Defined.

(** X10.  [import_data] merges key by key: after it has returned, a field
    holds [to_python] of the imported value when the imported mapping has the
    field's name, and [to_python] of the value stored before (of [None] when
    there was none) when it has not; the stored value is converted again at
    every import. *)
Theorem import_data_merges (cls : ModelClass) (self self' : instance)
    (d : odict pyval) (name : string) (field : BaseField.t) :
  NoDup (OrderedDict.keys (_fields cls)) ->
  NoDup (OrderedDict.keys d) ->
  OrderedDict.get (_fields cls) name = Some field ->
  Model.import_data cls self (ArgDict d) = (self', Return tt) ->
  exists v,
    call (BaseField.to_python field) (merged_value self d name) = Return v
    /\ OrderedDict.get (_data self') name = Some v.
Proof.
  intros Hnd Hd Hget Himp. unfold Model.import_data in Himp.
  destruct (Model._convert cls (OrderedDict.update (_data self) d) true)
    as [out|e] eqn:Hc; [|discriminate].
  injection Himp as <-. simpl.
  unfold Model._convert, OrderedDict.items in Hc.
  destruct (@convert_fields_keys (_fields cls) _ true OrderedDict.empty out
              Hnd Hc) as (_ & _ & Hin).
  destruct (Hin _ _ (@get_Some_In _ _ _ _ Hget)) as (v & Hv & Hout).
  rewrite dict_get_update in Hv by exact Hd. now exists v.
Qed.

Lemma import_data_merges_witness :
  _data (pair_after [[("a", PInt 1)]]) = [("a", PInt 1); ("b", PNone)]
  /\ exists v,
       call (BaseField.to_python (plain_field (PBool false)))
            (merged_value (pair_after [[("a", PInt 1)]]) [("b", PInt 2)] "a")
       = Return v
       /\ OrderedDict.get (_data (pair_after [[("a", PInt 1)]; [("b", PInt 2)]]))
            "a" = Some v.
Proof.
  split; [reflexivity|].
  apply (@import_data_merges Pair (pair_after [[("a", PInt 1)]])
           (pair_after [[("a", PInt 1)]; [("b", PInt 2)]])
           [("b", PInt 2)] "a" (plain_field (PBool false))
           (proj1 (new_schema_NoDup _ _ _))).
  - simpl. repeat constructor. simpl. tauto.
  - reflexivity.
  - reflexivity.
Defined.

(** X11.  When every field has a stored value and [to_python] returns each
    stored value unchanged, importing the empty mapping changes nothing. *)
Theorem import_empty_is_identity (cls : ModelClass) (self : instance) :
  NoDup (OrderedDict.keys (_fields cls)) ->
  OrderedDict.keys (_data self) = Model.fields cls ->
  (forall name field v,
      In (name, field) (_fields cls) ->
      OrderedDict.get (_data self) name = Some v ->
      call (BaseField.to_python field) v = Return v) ->
  Model.import_data cls self (ArgDict []) = (self, Return tt).
Proof.
  intros Hnd Hkeys Hfix. unfold Model.import_data. simpl.
  unfold Model._convert, OrderedDict.items.
  rewrite (@convert_fields_fixed (_fields cls) (_data self) true
             OrderedDict.empty (_data self) eq_refl Hkeys Hnd Hfix).
  now destruct self.
Qed.

Lemma import_empty_is_identity_witness :
  OrderedDict.keys (_data (pair_after [[("a", PInt 1)]])) = Model.fields Pair
  /\ Model.import_data Pair (pair_after [[("a", PInt 1)]]) (ArgDict [])
     = (pair_after [[("a", PInt 1)]], Return tt).
Proof.
  split; [reflexivity|].
  apply (@import_empty_is_identity Pair (pair_after [[("a", PInt 1)]])
           (proj1 (new_schema_NoDup _ _ _)) eq_refl).
  intros name field v [H | [H | []]] _; injection H as <- <-; reflexivity.
Defined.

(** X12.  When a conversion raises during [import_data], the store has
    already been updated with the imported mapping: every imported key is in
    it, a field of the schema or not, with values not converted; and the
    error is the one a field's [to_python] raised on the merged value. *)
Theorem failed_import_keeps_merge (cls : ModelClass) (self self' : instance)
    (d : odict pyval) (e : exn) :
  Model.import_data cls self (ArgDict d) = (self', Raise e) ->
  _data self' = OrderedDict.update (_data self) d
  /\ (forall k, In k (OrderedDict.keys d) ->
                OrderedDict.mem (_data self') k = true)
  /\ exists name field,
       In (name, field) (_fields cls)
       /\ call (BaseField.to_python field)
               (dict_get (OrderedDict.update (_data self) d) name)
          = Raise e.
Proof.
  intros Himp. unfold Model.import_data in Himp.
  destruct (Model._convert cls (OrderedDict.update (_data self) d) true)
    as [out|e0] eqn:Hc; [discriminate|].
  injection Himp as <- <-. simpl. split; [reflexivity|]. split.
  - intros k Hk. apply mem_true_iff, In_keys_update. now right.
  - unfold Model._convert, OrderedDict.items in Hc.
    apply convert_fields_raises in Hc. exact Hc.
Qed.

Lemma failed_import_keeps_merge_witness :
  Model.import_data Sized sized_blank
    (ArgDict [("size", PStr "big"); ("junk", PInt 1)])
  = (with_data sized_blank [("size", PStr "big"); ("junk", PInt 1)],
     Raise (ValueError "not an integer"))
  /\ OrderedDict.mem [("size", PStr "big"); ("junk", PInt 1)] "junk" = true.
Proof.
  split; [reflexivity|].
  apply (proj1 (proj2 (@failed_import_keeps_merge Sized sized_blank
                         (with_data sized_blank
                            [("size", PStr "big"); ("junk", PInt 1)])
                         [("size", PStr "big"); ("junk", PInt 1)]
                         (ValueError "not an integer") eq_refl)) "junk").
  simpl. auto.
Defined.

(** X13.  A constructor call with a non-empty mapping that returns leaves an
    instance of the class with the given identity, whose store has exactly
    the schema's keys and passes [validate]. *)
Theorem construction_establishes_schema (cls : ModelClass) (id : nat)
    (d : odict pyval) (self : instance) :
  NoDup (OrderedDict.keys (_fields cls)) ->
  d <> [] ->
  Model.__init__ cls id (ArgDict d) = (self, Return tt) ->
  oid self = id
  /\ type_name self = __name__ cls
  /\ OrderedDict.keys (_data self) = Model.fields cls
  /\ Model.validate cls self = Return tt.
Proof.
  intros Hnd Hd Hinit. unfold Model.__init__ in Hinit.
  destruct d as [|kv d']; [congruence|]. simpl in Hinit.
  destruct (Model._convert cls _ true) as [out|e] eqn:Hc in Hinit;
    [|discriminate].
  injection Hinit as <- Hval. simpl.
  unfold Model._convert, OrderedDict.items in Hc.
  destruct (@convert_fields_keys (_fields cls) _ true OrderedDict.empty out
              Hnd Hc) as (Hk & _ & _).
  repeat split; auto.
Qed.

Lemma construction_establishes_schema_witness :
  Model.__init__ Pair 4 (ArgDict [("a", PInt 1)])
  = (pair_after [[("a", PInt 1)]], Return tt)
  /\ OrderedDict.keys (_data (pair_after [[("a", PInt 1)]])) = Model.fields Pair.
Proof.
  split; [reflexivity|].
  apply (@construction_establishes_schema Pair 4 [("a", PInt 1)]
           (pair_after [[("a", PInt 1)]])
           (proj1 (new_schema_NoDup _ _ _))).
  - discriminate.
  - reflexivity.
Defined.

(** X14.  [items] lists a pair for a name exactly when the name is a field
    of the schema and the store has a value for it, which is the value
    listed: keys of the store that are not fields, and fields without data,
    do not appear. *)
Theorem items_present_fields (cls : ModelClass) (self : instance)
    (k : string) (v : pyval) :
  In (k, v) (Model.items cls self)
  <-> In k (Model.fields cls) /\ OrderedDict.get (_data self) k = Some v.
Proof.
  unfold Model.items. rewrite in_map_iff. split.
  - intros (k' & Heq & Hin). injection Heq as -> <-.
    apply iter_in_fields in Hin. destruct Hin as [Hf Hmem].
    split; [exact Hf|].
    unfold OrderedDict.mem, dict_get in *.
    destruct (OrderedDict.get (_data self) k); [reflexivity | discriminate].
  - intros [Hf Hget]. exists k. split.
    + unfold dict_get. now rewrite Hget.
    + apply iter_in_fields. split; [exact Hf|].
      unfold OrderedDict.mem. now rewrite Hget.
Qed.

Lemma items_present_fields_witness :
  Model.items Sized
    (with_data sized_blank [("size", PStr "big"); ("junk", PInt 1)])
  = [("size", PStr "big")]
  /\ OrderedDict.get [("size", PStr "big"); ("junk", PInt 1)] "size"
     = Some (PStr "big").
Proof.
  split; [reflexivity|].
  apply (proj1 (@items_present_fields Sized
                  (with_data sized_blank
                     [("size", PStr "big"); ("junk", PInt 1)])
                  "size" (PStr "big"))).
  simpl. auto.
Defined.

(** X15.  An instance that has no data for any field of the schema, such as
    one constructed without data, compares equal to every instance of its
    class, whatever that one holds. *)
Theorem blank_instance_equals_all (cls : ModelClass) (a b : instance) :
  (forall k, In k (Model.fields cls) -> OrderedDict.mem (_data a) k = false) ->
  type_name a = type_name b ->
  Model.__eq__ cls a b = Return EqTrue.
Proof.
  intros Hblank Htype. unfold Model.__eq__.
  destruct (Nat.eqb (oid a) (oid b)); [reflexivity|].
  apply String.eqb_eq in Htype. rewrite Htype. simpl.
  assert (Hiter : Model.__iter__ cls a = []).
  { unfold Model.__iter__. unfold Model.fields in Hblank.
    induction (OrderedDict.keys (_fields cls)) as [|k rest IH]; simpl; auto.
    rewrite Hblank by now left.
    apply IH. intros k' Hk'. apply Hblank. now right. }
  now rewrite Hiter.
Qed.

Lemma blank_instance_equals_all_witness :
  _data named_blank = []
  /\ Model.__eq__ (Named (AsyncDef shout)) named_blank named_x
     = Return EqTrue.
Proof.
  split; [reflexivity|].
  apply (@blank_instance_equals_all (Named (AsyncDef shout))
           named_blank named_x).
  - intros k _. reflexivity.
  - reflexivity.
Defined.

(** ** More on options *)

(** X1.  A configuration block declared in the class body gives the options
    of the class: each attribute of the block whose name does not begin with
    an underscore is an attribute of the options with the same value, the
    others are not copied, and an attribute the block does not have keeps
    the default ([None] for [name] and [namespace]). *)
Theorem meta_block_configures_options (name : string) (bases : list base)
    (decls : list (string * member)) (m : ModelOptions.block)
    (attr : string) :
  NoDup (map fst m) ->
  OrderedDict.get (OrderedDict.del (ModelMeta.class_body decls) "export")
    "Meta" = Some (OtherMember m) ->
  (forall value,
      In (attr, value) m ->
      ModelOptions.startswith_underscore attr = false ->
      ModelOptions.getattr (_meta (ModelMeta.class_stmt name bases decls)) attr
      = Some value)
  /\ (ModelOptions.startswith_underscore attr = true ->
      OrderedDict.get (_meta (ModelMeta.class_stmt name bases decls)) attr
      = None)
  /\ (~ In attr (map fst m) ->
      ModelOptions.getattr (_meta (ModelMeta.class_stmt name bases decls)) attr
      = OrderedDict.get ModelOptions.class_attrs attr).
Proof.
  intros Hnd Hmeta.
  assert (Hopts : _meta (ModelMeta.class_stmt name bases decls)
                  = ModelOptions.__init__ (Some m)).
  { unfold ModelMeta.class_stmt, ModelMeta.__new__.
    destruct (ModelMeta.inherit (rev bases) _ _) as [fields exports].
    destruct (ModelMeta.collect _ fields exports) as [fields' exports'].
    simpl. unfold ModelMeta.lookup_Meta. now rewrite Hmeta. }
  rewrite Hopts.
  destruct (@options_copy_public m attr Hnd) as [Hpub Hpriv].
  split; [exact Hpub|]. split; [exact Hpriv|].
  intros Hnotin. unfold ModelOptions.getattr, ModelOptions.__init__.
  rewrite copy_attrs_fold, get_fold_set.
  assert (Hnone : OrderedDict.get
                    (rev (filter
                            (fun av => negb (ModelOptions.startswith_underscore
                                               (fst av))) m)) attr = None).
  { apply get_None_iff. rewrite keys_rev, <- in_rev. intros Hin.
    apply Hnotin. unfold OrderedDict.keys in Hin.
    apply in_map_iff in Hin. destruct Hin as (x & Hx & Hin).
    apply filter_In in Hin. rewrite <- Hx. apply in_map. tauto. }
  now rewrite Hnone.
Qed.

Lemma meta_block_configures_options_witness :
  ModelOptions.getattr (_meta Tagged) "name" = Some (PStr "tags")
  /\ OrderedDict.get (_meta Tagged) "_hidden" = None
  /\ ModelOptions.getattr (_meta Tagged) "namespace" = Some PNone.
Proof.
  assert (Hnd : NoDup (map fst [("__module__", PStr "app");
                                ("_hidden", PInt 1);
                                ("name", PStr "tags")])).
  { simpl. repeat constructor; simpl; intuition discriminate. }
  pose proof (fun attr =>
                @meta_block_configures_options "Tagged"
                  [ModelBase Model.Model]
                  [("Meta", OtherMember [("__module__", PStr "app");
                                         ("_hidden", PInt 1);
                                         ("name", PStr "tags")]);
                   ("label", FieldMember (plain_field (PBool false)))]
                  [("__module__", PStr "app"); ("_hidden", PInt 1);
                   ("name", PStr "tags")]
                  attr Hnd eq_refl) as H.
  split; [|split].
  - apply (proj1 (H "name")); simpl; auto.
  - apply (proj1 (proj2 (H "_hidden"))). reflexivity.
  - apply (proj2 (proj2 (H "namespace"))). simpl. intuition discriminate.
Defined.

(** ** The multiplexer's routers *)

(** X16.  Removing a router under the name it was just added under
    succeeds and leaves what removing the name from the earlier table would
    leave: a router that was already bound to the name is not restored.
    When the name was free, the multiplexer is as it was before the
    addition, and removing a name that is not bound raises [KeyError] and
    changes nothing. *)
Theorem router_add_then_remove (App Router Formatter : Type)
    (m : WebsocketMultiplexer.t App Router Formatter) (name : string)
    (router : Router) :
  WebsocketMultiplexer.remove_router
    (WebsocketMultiplexer.add_router m name router) name
  = ({| WebsocketMultiplexer.app := WebsocketMultiplexer.app m;
        WebsocketMultiplexer.routers :=
          OrderedDict.del (WebsocketMultiplexer.routers m) name;
        WebsocketMultiplexer.formatter := WebsocketMultiplexer.formatter m |},
     Return tt)
  /\ (OrderedDict.mem (WebsocketMultiplexer.routers m) name = false ->
      WebsocketMultiplexer.remove_router
        (WebsocketMultiplexer.add_router m name router) name
      = (m, Return tt))
  /\ (OrderedDict.mem (WebsocketMultiplexer.routers m) name = false ->
      WebsocketMultiplexer.remove_router m name
      = (m, Raise (KeyError name))).
Proof.
  assert (Hfirst :
            WebsocketMultiplexer.remove_router
              (WebsocketMultiplexer.add_router m name router) name
            = ({| WebsocketMultiplexer.app := WebsocketMultiplexer.app m;
                  WebsocketMultiplexer.routers :=
                    OrderedDict.del (WebsocketMultiplexer.routers m) name;
                  WebsocketMultiplexer.formatter :=
                    WebsocketMultiplexer.formatter m |},
               Return tt)).
  { unfold WebsocketMultiplexer.remove_router, WebsocketMultiplexer.add_router.
    simpl. unfold OrderedDict.mem. rewrite get_set_eq, del_set. reflexivity. }
  split; [exact Hfirst|]. split.
  - intros Hfree. rewrite Hfirst. apply mem_false_iff in Hfree.
    rewrite del_fresh by exact Hfree. now destruct m.
  - intros Hfree. unfold WebsocketMultiplexer.remove_router.
    now rewrite Hfree.
Qed.

Lemma router_add_then_remove_witness :
  WebsocketMultiplexer.remove_router
    (WebsocketMultiplexer.add_router
       (@WebsocketMultiplexer.__init__ unit nat unit tt tt) "api" 7) "api"
  = (@WebsocketMultiplexer.__init__ unit nat unit tt tt, Return tt).
Proof.
  apply (proj1 (proj2 (@router_add_then_remove unit nat unit
                         (@WebsocketMultiplexer.__init__ unit nat unit tt tt)
                         "api" 7))).
  reflexivity.
Defined.

(** ** Dumping a store and loading it back *)

Lemma odict_ext (V : Type) (d1 d2 : odict V) :
  OrderedDict.keys d1 = OrderedDict.keys d2 ->
  NoDup (OrderedDict.keys d1) ->
  (forall k, OrderedDict.get d1 k = OrderedDict.get d2 k) ->
  d1 = d2.
Proof.
  unfold OrderedDict.keys. revert d2.
  induction d1 as [|[k1 v1] rest1 IH]; intros [|[k2 v2] rest2] Hkeys Hnd Hget;
    try discriminate; auto.
  simpl in Hkeys. injection Hkeys as -> Hkeys.
  inversion Hnd as [|? ? Hnotin Hnd']; subst.
  pose proof (Hget k2) as Hhead. simpl in Hhead.
  rewrite String.eqb_refl in Hhead. injection Hhead as ->.
  f_equal. apply IH; auto.
  intros k. pose proof (Hget k) as Hk. simpl in Hk.
  destruct (String.eqb k k2) eqn:E; auto.
  apply String.eqb_eq in E. subst k.
  assert (H1 : OrderedDict.get rest1 k2 = None) by now apply get_None_iff.
  assert (H2 : OrderedDict.get rest2 k2 = None)
    by (apply get_None_iff; unfold OrderedDict.keys; now rewrite <- Hkeys).
  now rewrite H1, H2.
Qed.

Lemma keys_update_within (V : Type) (src d : odict V) :
  (forall k, In k (OrderedDict.keys src) -> In k (OrderedDict.keys d)) ->
  OrderedDict.keys (OrderedDict.update d src) = OrderedDict.keys d.
Proof.
  unfold OrderedDict.update. revert d.
  induction src as [|[k v] rest IH]; intros d Hsub; simpl; auto.
  assert (Hk : OrderedDict.keys (OrderedDict.set d k v) = OrderedDict.keys d).
  { rewrite keys_set.
    assert (Hmem : OrderedDict.mem d k = true)
      by (apply mem_true_iff, Hsub; now left).
    now rewrite Hmem. }
  rewrite IH; auto.
  intros k' Hk'. rewrite Hk. apply Hsub. now right.
Qed.

(** Updating a dictionary with one that has the same keys gives the
    latter. *)
Lemma update_same_keys (V : Type) (d src : odict V) :
  NoDup (OrderedDict.keys d) ->
  OrderedDict.keys d = OrderedDict.keys src ->
  OrderedDict.update d src = src.
Proof.
  intros Hnd Hkeys.
  assert (Hk : OrderedDict.keys (OrderedDict.update d src)
               = OrderedDict.keys src).
  { rewrite keys_update_within; auto. intros k. now rewrite Hkeys. }
  apply odict_ext; auto.
  - rewrite Hk, <- Hkeys. exact Hnd.
  - intros k. rewrite get_update, get_rev_NoDup by now rewrite <- Hkeys.
    destruct (OrderedDict.get src k) eqn:E; auto.
    apply get_None_iff. rewrite Hkeys. now apply get_None_iff.
Qed.

(** Converting [data] gives [target] when the two have the fields as their
    keys and each conversion takes the value in [data] to the one in
    [target]. *)
Lemma convert_fields_pointwise fields data native target :
  forall converted_data tail,
    target = (converted_data ++ tail)%list ->
    map fst tail = map fst fields ->
    NoDup (OrderedDict.keys converted_data ++ map fst fields) ->
    (forall name field v,
        In (name, field) fields ->
        OrderedDict.get target name = Some v ->
        call (conversion native field) (dict_get data name) = Return v) ->
    Model.convert_fields fields data native converted_data = Return target.
Proof.
  induction fields as [|[n0 f0] rest IH]; intros acc tail Htarget Hkeys Hnd Hfix.
  - destruct tail; [|discriminate]. rewrite app_nil_r in Htarget.
    simpl. now rewrite Htarget.
  - destruct tail as [|[n0' v0] tail']; [discriminate|].
    simpl in Hkeys. injection Hkeys as -> Hkeys.
    assert (Hfresh : ~ In n0 (OrderedDict.keys acc)).
    { apply NoDup_remove_2 in Hnd. rewrite in_app_iff in Hnd. tauto. }
    assert (Hget : OrderedDict.get target n0 = Some v0).
    { rewrite Htarget, get_app.
      apply get_None_iff in Hfresh. rewrite Hfresh.
      simpl. now rewrite String.eqb_refl. }
    simpl. rewrite convert_step.
    rewrite (Hfix n0 f0 v0 (or_introl eq_refl) Hget). simpl.
    rewrite set_fresh by exact Hfresh.
    apply (IH _ tail').
    + rewrite Htarget, <- app_assoc. reflexivity.
    + exact Hkeys.
    + unfold OrderedDict.keys in *. rewrite map_app, <- app_assoc. exact Hnd.
    + intros name field v Hin. apply Hfix. now right.
Qed.

(** X17.  Dump and load: when every field has a stored value and each
    field's [to_python] takes what its [to_data] returns for the stored value
    back to that value, importing the mapping [export_data(native=False)]
    returned leaves the instance as it was. *)
Theorem export_then_import_round_trip (cls : ModelClass) (self : instance)
    (out : odict pyval) :
  NoDup (OrderedDict.keys (_fields cls)) ->
  OrderedDict.keys (_data self) = Model.fields cls ->
  (forall name field v w,
      In (name, field) (_fields cls) ->
      OrderedDict.get (_data self) name = Some v ->
      call (BaseField.to_data field) v = Return w ->
      call (BaseField.to_python field) w = Return v) ->
  Model.export_data cls self false = Return out ->
  Model.import_data cls self (ArgDict out) = (self, Return tt).
Proof.
  intros Hnd Hkeys Hinv Hexp.
  unfold Model.export_data, Model._convert, OrderedDict.items in Hexp.
  destruct (@convert_fields_keys (_fields cls) _ false OrderedDict.empty out
              Hnd Hexp) as (Hk & _ & Hin).
  simpl in Hk. fold (OrderedDict.keys (_fields cls)) in Hk.
  unfold Model.fields in Hkeys.
  unfold Model.import_data.
  rewrite update_same_keys;
    [| rewrite Hkeys; exact Hnd | rewrite Hkeys, Hk; reflexivity].
  unfold Model._convert, OrderedDict.items.
  rewrite (@convert_fields_pointwise (_fields cls) out true (_data self)
             OrderedDict.empty (_data self) eq_refl Hkeys Hnd).
  - now destruct self.
  - intros name field v Hfield Hget.
    destruct (Hin _ _ Hfield) as (w & Hw & Hout).
    unfold dict_get in Hw. rewrite Hget in Hw.
    unfold dict_get. rewrite Hout.
    exact (Hinv _ _ _ _ Hfield Hget Hw).
Qed.

Lemma export_then_import_round_trip_witness :
  Model.export_data Shown shown_titled false
  = Return [("hidden", PInt 1); ("kept", PNone); ("sparse", PNone);
            ("title", PStr "t")]
  /\ Model.import_data Shown shown_titled
       (ArgDict [("hidden", PInt 1); ("kept", PNone); ("sparse", PNone);
                 ("title", PStr "t")])
     = (shown_titled, Return tt).
Proof.
  split; [reflexivity|].
  apply (@export_then_import_round_trip Shown shown_titled
           [("hidden", PInt 1); ("kept", PNone); ("sparse", PNone);
            ("title", PStr "t")]
           (proj1 (new_schema_NoDup _ _ _)) eq_refl).
  - intros name field v w [H | [H | [H | [H | []]]]] _ Hcall;
      injection H as <- <-; simpl in Hcall; injection Hcall as <-;
      reflexivity.
  - reflexivity.
Defined.
